(** * hq: the module-addressing utilities of [src/utils.mjs]

    A shallow embedding of the path classifier, the extension prober, the
    package-descriptor reader, the entry resolver, the browser-aware module
    resolver and the listener bootstrap, with the properties stated about
    them.

    JavaScript strings are modelled by [string]; every character test made
    by the code (letters of [worker]/[sw], decimal digits, word characters,
    [/] and [.]) is an ASCII test, so code units above 127 behave alike in
    both representations. *)

From Stdlib Require Import String Ascii List ZArith Lia Bool DecimalString DecimalNat.
From Equations Require Import Equations.
Import ListNotations.
Open Scope string_scope.

(* ===================================================================== *)
(** ** JavaScript values and string primitives *)
(* ===================================================================== *)

Module Js.

(** The values [JSON.parse] yields for a descriptor, and [undefined] for
    an absent property.  Numbers are the integer-valued ones; arrays do
    not occur in the fields read by the code and are left out. *)
#[warning="-register-all"]
Inductive value : Type :=
| Undefined
| Null
| Bool (b : bool)
| Num (z : Z)
| Str (s : string)
| Obj (props : list (string * value)).

(** ToBoolean. *)
Definition truthy (v : value) : bool :=
  match v with
  | Undefined | Null => false
  | Bool b => b
  | Num z => negb (Z.eqb z 0)
  | Str s => negb (String.eqb s "")
  | Obj _ => true
  end.

(** The [typeof] operator. *)
Definition typeof (v : value) : string :=
  match v with
  | Undefined => "undefined"
  | Null => "object"
  | Bool _ => "boolean"
  | Num _ => "number"
  | Str _ => "string"
  | Obj _ => "object"
  end.

(** ToString, as applied by a template literal. *)
Definition to_string (v : value) : string :=
  match v with
  | Undefined => "undefined"
  | Null => "null"
  | Bool true => "true"
  | Bool false => "false"
  | Num z => NilZero.string_of_int (Z.to_int z)
  | Str s => s
  | Obj _ => "[object Object]"
  end.

Fixpoint assoc (k : string) (props : list (string * value)) : value :=
  match props with
  | [] => Undefined
  | (k', v) :: rest => if String.eqb k k' then v else assoc k rest
  end.

(** The own property [k] of a parsed object, [undefined] when it has none.
    It stands for [o[k]] where the code only asks whether the result is a
    string or a boolean, or reads a field that no built-in prototype holds;
    [lookup] below is [o[k]] along the prototype chain. *)
Definition get (o : value) (k : string) : value :=
  match o with
  | Obj props => assoc k props
  | _ => Undefined
  end.

(** What [o[k]] finds: a data value (an own property, or [undefined] when
    nothing is found), or a member inherited from a built-in prototype,
    given by the class of the receiver and the name.  An inherited member
    is a function, or for [__proto__] the prototype object. *)
Inductive member : Type :=
| Data (v : value)
| Inherited (class name : string).

Definition member_truthy (x : member) : bool :=
  match x with
  | Data v => truthy v
  | Inherited _ _ => true
  end.

Definition member_of (k : string) (names : list string) : bool :=
  existsb (String.eqb k) names.

Fixpoint has_own (k : string) (props : list (string * value)) : bool :=
  match props with
  | [] => false
  | (k', _) :: rest => String.eqb k k' || has_own k rest
  end.

(** The property names of [Object.prototype], [String.prototype],
    [Number.prototype] and [Boolean.prototype]. *)
Definition object_prototype_names : list string :=
  ["constructor"; "__defineGetter__"; "__defineSetter__"; "hasOwnProperty";
   "__lookupGetter__"; "__lookupSetter__"; "isPrototypeOf"; "propertyIsEnumerable";
   "toString"; "valueOf"; "__proto__"; "toLocaleString"].

Definition string_prototype_names : list string :=
  ["constructor"; "anchor"; "at"; "big"; "blink"; "bold"; "charAt"; "charCodeAt";
   "codePointAt"; "concat"; "endsWith"; "fontcolor"; "fontsize"; "fixed"; "includes";
   "indexOf"; "isWellFormed"; "italics"; "lastIndexOf"; "link"; "localeCompare";
   "match"; "matchAll"; "normalize"; "padEnd"; "padStart"; "repeat"; "replace";
   "replaceAll"; "search"; "slice"; "small"; "split"; "strike"; "sub"; "substr";
   "substring"; "startsWith"; "toString"; "toWellFormed"; "trim"; "trimStart";
   "trimLeft"; "trimEnd"; "trimRight"; "toLocaleLowerCase"; "toLocaleUpperCase";
   "toLowerCase"; "toUpperCase"; "valueOf"].

Definition number_prototype_names : list string :=
  ["constructor"; "toExponential"; "toFixed"; "toPrecision"; "toString"; "valueOf";
   "toLocaleString"].

Definition boolean_prototype_names : list string :=
  ["constructor"; "toString"; "valueOf"].

Definition from_prototype (class : string) (names : list string) (k : string) : member :=
  if member_of k names || member_of k object_prototype_names
  then Inherited class k
  else Data Undefined.

(** A canonical array index: a decimal numeral without a leading zero. *)
Fixpoint index_value (acc : nat) (k : string) : option nat :=
  match k with
  | EmptyString => Some acc
  | String c k' =>
      let n := nat_of_ascii c in
      if ((48 <=? n) && (n <=? 57))%nat then index_value (10 * acc + (n - 48)) k' else None
  end.

Definition array_index (k : string) : option nat :=
  match k with
  | EmptyString => None
  | String c k' =>
      if Ascii.eqb c "0" && negb (String.eqb k' "") then None else index_value 0 k
  end.

(** [o[k]].  The code looks up properties only of values it has found
    truthy, so a receiver that is [undefined] or [null], on which the
    lookup would throw, does not occur. *)
Definition lookup (o : value) (k : string) : member :=
  match o with
  | Obj props =>
      if has_own k props then Data (assoc k props) else from_prototype "Object" [] k
  | Str s =>
      if String.eqb k "length" then Data (Num (Z.of_nat (String.length s)))
      else
        match array_index k with
        | Some i =>
            match String.get i s with
            | Some c => Data (Str (String c EmptyString))
            | None => from_prototype "String" string_prototype_names k
            end
        | None => from_prototype "String" string_prototype_names k
        end
  | Num _ => from_prototype "Number" number_prototype_names k
  | Bool _ => from_prototype "Boolean" boolean_prototype_names k
  | Undefined | Null => Data Undefined
  end.

(** [a || b] and [a && b] on what lookups find. *)
Definition m_or (a b : member) : member := if member_truthy a then a else b.
Definition m_and (a b : member) : member := if member_truthy a then b else a.

(** [a || b] and [a && b]. *)
Definition js_or (a b : value) : value := if truthy a then a else b.
Definition js_and (a b : value) : value := if truthy a then b else a.

(** A completion: a returned value or a thrown exception (its message). *)
Inductive completion (A : Type) : Type :=
| Return (a : A)
| Throw (message : string).
Arguments Return {A} a.
Arguments Throw {A} message.

Definition startsWith (s p : string) : bool := String.prefix p s.

(** [s.slice(n)] for [0 <= n]. *)
Fixpoint drop (n : nat) (s : string) : string :=
  match n, s with
  | O, _ => s
  | S n', EmptyString => EmptyString
  | S n', String _ s' => drop n' s'
  end.

Definition endsWith (s suffix : string) : bool :=
  (String.length suffix <=? String.length s)%nat &&
  String.eqb (drop (String.length s - String.length suffix) s) suffix.

(** [s.slice(0, -n)] where [n] is a length.  Note that [-0] is [0], so
    [s.slice(0, -0)] is the empty string, not [s]. *)
Definition slice_0_neg (s : string) (n : nat) : string :=
  match n with
  | O => EmptyString
  | S _ => String.substring 0 (String.length s - n) s
  end.

(** [s.split(sep)] for a non-empty separator: [skip] counts the
    characters of a separator occurrence still to be passed over and
    [cur] is the piece being collected. *)
Fixpoint split_from (sep : string) (skip : nat) (cur s : string) : list string :=
  match s with
  | EmptyString => [cur]
  | String c s' =>
      match skip with
      | S k => split_from sep k cur s'
      | O =>
          if String.prefix sep s
          then cur :: split_from sep (String.length sep - 1) EmptyString s'
          else split_from sep 0 (cur ++ String c EmptyString) s'
      end
  end.

Definition split (s sep : string) : list string := split_from sep 0 EmptyString s.

(** [parts.join(sep)]. *)
Definition join (parts : list string) (sep : string) : string := String.concat sep parts.

End Js.

Import Js.

(* ===================================================================== *)
(** ** Regular expressions (the fragment used by the classifier) *)
(* ===================================================================== *)

Module Regex.

Inductive pattern : Type :=
| Lit (s : string)
| Alt (p q : pattern)
| Seq (p q : pattern)
| StarClass (cls : ascii -> bool)
| WordBoundary.

Record regexp : Type := { source : pattern; ignoreCase : bool }.

Definition is_digit (c : ascii) : bool :=
  let n := nat_of_ascii c in ((48 <=? n) && (n <=? 57))%nat.

Definition is_upper (c : ascii) : bool :=
  let n := nat_of_ascii c in ((65 <=? n) && (n <=? 90))%nat.

Definition is_lower (c : ascii) : bool :=
  let n := nat_of_ascii c in ((97 <=? n) && (n <=? 122))%nat.

(** The characters of [\w]. *)
Definition is_word (c : ascii) : bool :=
  is_digit c || is_upper c || is_lower c || Ascii.eqb c "_".

(** Canonicalize of a non-unicode, case-insensitive expression. *)
Definition canonicalize (c : ascii) : ascii :=
  if is_lower c then ascii_of_nat (nat_of_ascii c - 32) else c.

Definition same_char (ci : bool) (a b : ascii) : bool :=
  if ci then Ascii.eqb (canonicalize a) (canonicalize b) else Ascii.eqb a b.

Definition word_before (prev : option ascii) : bool :=
  match prev with Some c => is_word c | None => false end.

Definition word_after (s : string) : bool :=
  match s with String c _ => is_word c | EmptyString => false end.

(** A backtracking matcher in continuation style.  [prev] is the
    character just before the current position, [s] the input left and
    [k] what remains to be matched. *)
Fixpoint match_lit (ci : bool) (lit : string) (prev : option ascii) (s : string)
         (k : option ascii -> string -> bool) : bool :=
  match lit with
  | EmptyString => k prev s
  | String l lit' =>
      match s with
      | String c s' => same_char ci l c && match_lit ci lit' (Some c) s' k
      | EmptyString => false
      end
  end.

Fixpoint match_star (cls : ascii -> bool) (prev : option ascii) (s : string)
         (k : option ascii -> string -> bool) : bool :=
  match s with
  | String c s' =>
      if cls c then match_star cls (Some c) s' k || k prev s else k prev s
  | EmptyString => k prev s
  end.

Fixpoint matches (ci : bool) (p : pattern) (prev : option ascii) (s : string)
         (k : option ascii -> string -> bool) : bool :=
  match p with
  | Lit lit => match_lit ci lit prev s k
  | Alt p1 p2 => matches ci p1 prev s k || matches ci p2 prev s k
  | Seq p1 p2 => matches ci p1 prev s (fun prev' s' => matches ci p2 prev' s' k)
  | StarClass cls => match_star cls prev s k
  | WordBoundary => xorb (word_before prev) (word_after s) && k prev s
  end.

(** Unanchored search, every start position from left to right. *)
Fixpoint search (ci : bool) (p : pattern) (prev : option ascii) (s : string) : bool :=
  matches ci p prev s (fun _ _ => true) ||
  match s with
  | String c s' => search ci p (Some c) s'
  | EmptyString => false
  end.

(** [re.test(s)]. *)
Definition test (re : regexp) (s : string) : bool :=
  search (ignoreCase re) (source re) None s.

(** [s.match(/\d+/g)]: the maximal runs of decimal digits from left to
    right; [run] is the run being read, if any. *)
Fixpoint digit_runs_from (run : option string) (s : string) : list string :=
  match s with
  | EmptyString => match run with Some r => [r] | None => [] end
  | String c s' =>
      if is_digit c
      then digit_runs_from
             (Some (match run with Some r => r ++ String c EmptyString
                                 | None => String c EmptyString end)) s'
      else match run with
           | Some r => r :: digit_runs_from None s'
           | None => digit_runs_from None s'
           end
  end.

(** The result of [match] with a global expression is [null] when there
    is no match. *)
Definition match_all_digits (s : string) : option (list string) :=
  match digit_runs_from None s with
  | [] => None
  | runs => Some runs
  end.

(** Vocabulary for stating what a match is: [tok] is the text [lit] up to
    the case of letters; every character of [s] is in [cls]; the character
    before the position reached after reading [s]. *)
Fixpoint same_text (ci : bool) (lit tok : string) : bool :=
  match lit, tok with
  | EmptyString, EmptyString => true
  | String l lit', String c tok' => same_char ci l c && same_text ci lit' tok'
  | _, _ => false
  end.

Fixpoint all_chars (cls : ascii -> bool) (s : string) : bool :=
  match s with
  | EmptyString => true
  | String c s' => cls c && all_chars cls s'
  end.

Fixpoint last_char (prev : option ascii) (s : string) : option ascii :=
  match s with
  | EmptyString => prev
  | String c s' => last_char (Some c) s'
  end.

End Regex.

(* ===================================================================== *)
(** ** Path classifier *)
(* ===================================================================== *)

(** [/(worker|sw)\d*\b/i] *)
Definition WORKER_REXP : Regex.regexp :=
  {| Regex.source :=
       Regex.Seq (Regex.Alt (Regex.Lit "worker") (Regex.Lit "sw"))
                 (Regex.Seq (Regex.StarClass Regex.is_digit) Regex.WordBoundary);
     Regex.ignoreCase := true |}.

Definition isWorker (filePath : string) : bool := Regex.test WORKER_REXP filePath.

(** What is left of [WORKER_REXP] once [worker] or [sw] has been read:
    [\d*\b] and the end of the match. *)
Definition after_token (prev : option ascii) (s : string) : bool :=
  Regex.match_star Regex.is_digit prev s
    (fun prev' s' => xorb (Regex.word_before prev') (Regex.word_after s') && true).

(** The classifier as the specification words it: the expression is tested
    on the filename, the path without its directory. *)
Definition isWorker_by_filename (filePath : string) : bool :=
  Regex.test WORKER_REXP (last (split filePath "/") "").

Definition source_extensions : list string :=
  [".pug"; ".html"; ".css"; ".scss"; ".sass"; ".less"; ".js"; ".jsx";
   ".mjs"; ".es6"; ".vue"; ".svelte"; ".ts"; ".tsx"; ".coffee"; ".map"].

Definition includes (l : list string) (x : string) : bool :=
  existsb (String.eqb x) l.

Definition isSource (ext : string) : bool := includes source_extensions ext.

Definition getResType (ext : string) : string :=
  if includes [".jsx"; ".ts"; ".tsx"; ".es6"; ".vue"; ".svelte"; ".coffee"] ext then ".js"
  else if includes [".scss"; ".sass"; ".less"] ext then ".css"
  else if String.eqb ext ".pug" then ".html"
  else ext.

(** [Number(x)] for a run of decimal digits: its exact value.  [Number]
    gives this value only below 2^53 and rounds to the nearest double
    above, so a statement about the value carries that bound. *)
Fixpoint digits_value (acc : Z) (s : string) : Z :=
  match s with
  | EmptyString => acc
  | String c s' => digits_value (10 * acc + (Z.of_nat (nat_of_ascii c) - 48)) s'
  end.

(** [Number(x)] where [x] is a digit run or [undefined]; [None] is NaN. *)
Definition Number (x : option string) : option Z :=
  match x with
  | Some s => Some (digits_value 0 s)
  | None => None
  end.

(** The object returned by [getVersion]: [None] is the empty record [{}]. *)
Record Version : Type := { major : option Z; minor : option Z; patch : option Z }.

(** [version.match(/\d+/g)] destructured into the three numbers; a value
    that is not a string has no [match]. *)
Definition read_version (version : value) : completion (option Version) :=
  match version with
  | Str v =>
      match Regex.match_all_digits v with
      | Some runs =>
          Return (Some {| major := Number (nth_error runs 0);
                          minor := Number (nth_error runs 1);
                          patch := Number (nth_error runs 2) |})
      | None => Throw "TypeError: null is not iterable"
      end
  | _ => Throw "TypeError: version.match is not a function"
  end.

(** An inherited member is truthy and has no [match], except the prototype
    of a string, on which [match] finds no digit. *)
Definition getVersion (dependencies : value) (name : string)
  : completion (option Version) :=
  if negb (truthy dependencies) then Return None
  else
    match lookup dependencies name with
    | Data version =>
        if negb (truthy version) then Return None else read_version version
    | Inherited class member_name =>
        if String.eqb class "String" && String.eqb member_name "__proto__"
        then Throw "TypeError: null is not iterable"
        else Throw "TypeError: version.match is not a function"
    end.

(* ===================================================================== *)
(** ** Extension prober *)
(* ===================================================================== *)

Section Prober.

(** [fs.pathExists]. *)
Variable pathExists : string -> bool.

Definition findExistingExtension (filepath : string) : completion string :=
  if endsWith filepath "index" && pathExists (filepath ++ ".html") then Return ".html"
  else if pathExists (filepath ++ ".jsx") then Return ".jsx"
  else if pathExists (filepath ++ ".vue") then Return ".vue"
  else if pathExists (filepath ++ ".svelte") then Return ".svelte"
  else if pathExists (filepath ++ ".mjs") then Return ".mjs"
  else if pathExists (filepath ++ ".json") then Return ".json"
  else if pathExists (filepath ++ ".ts") then Return ".ts"
  else if pathExists (filepath ++ ".tsx") then Return ".tsx"
  else if pathExists (filepath ++ ".coffee") then Return ".coffee"
  else if pathExists (filepath ++ ".es6") then Return ".es6"
  else if pathExists (filepath ++ ".js") then Return ".js"
  else if pathExists filepath then Return ""
  else if negb (endsWith filepath "index") && pathExists (filepath ++ ".html") then Return ".html"
  else Throw ("File " ++ filepath ++ " not found").

End Prober.

(** The probing order as a list of candidate extensions, the markup
    extension being placed by the test [index_like] on the probed path.
    The first existing candidate wins. *)
Definition probe_order (index_like : bool) : list string :=
  (if index_like then [".html"] else []) ++
  [".jsx"; ".vue"; ".svelte"; ".mjs"; ".json"; ".ts"; ".tsx"; ".coffee"; ".es6"; ".js"; ""] ++
  (if index_like then [] else [".html"]).

Fixpoint first_existing (pathExists : string -> bool) (filepath : string)
         (candidates : list string) : option string :=
  match candidates with
  | [] => None
  | ext :: rest =>
      if pathExists (filepath ++ ext) then Some ext
      else first_existing pathExists filepath rest
  end.

(** The last segment of a path. *)
Definition basename (filepath : string) : string := last (split filepath "/") "".

(** The prober as the specification words it: markup comes first only when
    the basename of the probed path is [index]. *)
Definition findExistingExtension_by_basename (pathExists : string -> bool)
           (filepath : string) : completion string :=
  match first_existing pathExists filepath
          (probe_order (String.eqb (basename filepath) "index")) with
  | Some ext => Return ext
  | None => Throw ("File " ++ filepath ++ " not found")
  end.

(* ===================================================================== *)
(** ** Package descriptor cache and entry resolver *)
(* ===================================================================== *)

(** The fields of a package descriptor that the code reads or writes. *)
Record packageJSON : Type :=
  { browser : value; main : value; module : value; version : value }.

(** The object [{}]. *)
Definition empty_descriptor : packageJSON :=
  {| browser := Undefined; main := Undefined; module := Undefined; version := Undefined |}.

Definition set_main (pkg : packageJSON) (v : value) : packageJSON :=
  {| browser := browser pkg; main := v; module := module pkg; version := version pkg |}.

(** The file system as the code observes it: [fs.pathExists], and
    [fs.readFile] followed by [JSON.parse], which is [None] when either of
    the two throws. *)
Record Disk : Type :=
  { exists_on : string -> bool; read_json : string -> option value }.

(** [packageJSONMap], keyed by directory. *)
Definition cache : Type := list (string * packageJSON).

Fixpoint cache_get (m : cache) (dirPath : string) : option packageJSON :=
  match m with
  | [] => None
  | (d, pj) :: rest => if String.eqb dirPath d then Some pj else cache_get rest dirPath
  end.

Section Descriptor.

(** [path.join]. *)
Variable path_join : string -> string -> string.
Variable disk : Disk.

(** The loop of [getPackageJSONDir]; [None] when [fuel] iterations did not
    end it. *)
Fixpoint walk_up (fuel : nat) (dirPath prev : string) : option string :=
  match fuel with
  | O => None
  | S fuel' =>
      if negb (String.eqb dirPath prev) &&
         negb (exists_on disk (path_join dirPath "package.json"))
      then walk_up fuel' (path_join dirPath "..") dirPath
      else Some dirPath
  end.

(** The inner [option] is the returned directory, [None] for [null]. *)
Definition getPackageJSONDir (fuel : nat) (dir : string) : option (option string) :=
  match walk_up fuel dir "" with
  | None => None
  | Some dirPath =>
      Some (if exists_on disk (path_join dirPath "package.json")
            then Some dirPath else None)
  end.

(** [readPackageJSON(dirPath, { search: false })] with the default field
    list.  A [null] directory makes [path.join] throw inside the [try]. *)
Definition readPackageJSON_at (m : cache) (dirPath : option string)
  : packageJSON * cache :=
  match dirPath with
  | None => (empty_descriptor, m)
  | Some d =>
      match cache_get m d with
      | Some pj => (pj, m)
      | None =>
          match read_json disk (path_join d "package.json") with
          | None | Some Null => (empty_descriptor, m)
          | Some parsed =>
              let filtered :=
                {| browser := get parsed "browser"; main := get parsed "main";
                   module := get parsed "module"; version := get parsed "version" |} in
              (filtered, (d, filtered) :: m)
          end
      end
  end.

Definition readPackageJSON (fuel : nat) (m : cache) (dir : string) (search : bool)
  : option (packageJSON * cache) :=
  if search
  then match getPackageJSONDir fuel dir with
       | None => None
       | Some dirPath => Some (readPackageJSON_at m dirPath)
       end
  else Some (readPackageJSON_at m (Some dir)).

(** The operands of the [||] chain of [resolvePackageMain] that precede the
    probe for an index file. *)
Definition declared_entry (pj : packageJSON) : member :=
  m_or (Data (module pj))
   (m_or (Data (js_and (Bool (String.eqb (typeof (browser pj)) "string")) (browser pj)))
     (m_or (m_and (Data (Bool (String.eqb (typeof (browser pj)) "object")))
               (m_and (Data (browser pj))
                  (m_and (Data (main pj))
                     (m_or (lookup (browser pj) ("./" ++ to_string (main pj)))
                           (lookup (browser pj) (to_string (main pj)))))))
           (Data (main pj)))).

Definition dir_string (dirPath : option string) : string :=
  match dirPath with Some d => d | None => "null" end.

Definition resolvePackageMain_at (m : cache) (dirPath : option string)
  : completion member * cache :=
  let '(pj, m') := readPackageJSON_at m dirPath in
  let declared := declared_entry pj in
  if member_truthy declared then (Return declared, m')
  else
    match findExistingExtension (exists_on disk) (dir_string dirPath ++ "/index") with
    | Return ext => (Return (Data (Str ("index" ++ ext))), m')
    | Throw e => (Throw e, m')
    end.

(** [resolvePackageMain(dir, { search })]; [None] only when the directory
    walk did not end within [fuel] iterations. *)
Definition resolvePackageMain (fuel : nat) (m : cache) (dir : string) (search : bool)
  : option (completion member * cache) :=
  if search
  then match getPackageJSONDir fuel dir with
       | None => None
       | Some dirPath => Some (resolvePackageMain_at m dirPath)
       end
  else Some (resolvePackageMain_at m (Some dir)).

End Descriptor.

(** Instances for examples: [path.join] of a directory and a name, and a
    disk holding one package, [/app/node_modules/pkg], with its descriptor
    and an index script. *)
Definition posix_join (dir name : string) : string := dir ++ "/" ++ name.

Definition sample_disk (descriptor : value) : Disk :=
  {| exists_on := fun p =>
       String.eqb p "/app/node_modules/pkg/package.json" ||
       String.eqb p "/app/node_modules/pkg/index.js";
     read_json := fun p =>
       if String.eqb p "/app/node_modules/pkg/package.json" then Some descriptor else None |}.

(** A mapping: an object that is not [null]. *)
Definition is_mapping (v : value) : bool :=
  String.eqb (typeof v) "object" && truthy v.




(* ===================================================================== *)
(** ** Browser-aware module resolver *)
(* ===================================================================== *)

(** The promise built by [resolvePackageFrom]: the first call of [resolve]
    or [reject] settles it, later calls have no effect. *)
Inductive promise : Type :=
| Pending
| Fulfilled (v : value)
| Rejected (err : string).

Definition settle (now : promise) (p : promise) : promise :=
  match p with
  | Pending => now
  | _ => p
  end.

(** The record [result] shared by the two filters and the final callback,
    together with the state of the promise. *)
Record resolution : Type :=
  { modified : bool; resolved : bool; outcome : promise }.

Definition initial : resolution :=
  {| modified := false; resolved := false; outcome := Pending |}.

Definition mark_modified (st : resolution) : resolution :=
  {| modified := true; resolved := resolved st; outcome := outcome st |}.

(** [result.resolved = true; resolve(emptyPath)]. *)
Definition disable (emptyPath : string) (st : resolution) : resolution :=
  {| modified := modified st; resolved := true;
     outcome := settle (Fulfilled (Str emptyPath)) (outcome st) |}.

Definition is_string (v : value) : bool := String.eqb (typeof v) "string".
Definition is_boolean (v : value) : bool := String.eqb (typeof v) "boolean".

(** What the underlying resolution algorithm (the [resolve] package) does
    with the hooks it is given: it calls the descriptor filter on a package
    descriptor it has read and goes on with the descriptor returned, calls
    the path filter and goes on with its answer, and ends by calling the
    callback with an error or a path. *)
Inductive run : Type :=
| CallPackageFilter (pkg : packageJSON) (k : packageJSON -> run)
| CallPathFilter (pkg : packageJSON) (fullPath relativePath : string) (k : value -> run)
| CallBack (err : option string) (p : value).

(** How a call of [resolvePackageFrom] ends: the library has called back,
    or an exception thrown by a hook has escaped into the library. *)
Inductive ending : Type :=
| Finished (p : promise)
| Escaped (message : string) (p : promise).

Definition resolve_extensions : list string :=
  [".js"; ".jsx"; ".mjs"; ".es6"; ".vue"; ".svelte"; ".ts"; ".tsx"; ".coffee";
   ".css"; ".scss"; ".sass"; ".less"; ".pug"; ".html"].

Section Resolver.

(** [path.extname], [path.resolve], [resolve.isCore] and [resolve] itself,
    called with the specifier, the base directory and the extensions. *)
Variable extname : string -> string.
Variable path_resolve : string -> string -> string.
Variable isCore : string -> bool.
Variable resolvePackage : string -> string -> list string -> run.

(** The keys looked up by [resolveOrModify], in the order of the chain. *)
Definition browser_keys (pkgPath : string) : list string :=
  let pkgBasename := slice_0_neg pkgPath (String.length (extname pkgPath)) in
  [pkgPath; "./" ++ pkgPath; "./" ++ pkgPath ++ ".js"; "./" ++ pkgBasename ++ ".js"].

(** [path.extname] throws on an argument that is not a string. *)
Definition resolveOrModify (pkgPath : value) (pkg : packageJSON)
           (emptyPath : string) (st : resolution)
  : completion (packageJSON * resolution) :=
  match pkgPath with
  | Str pkgPath =>
      let pkgBasename := slice_0_neg pkgPath (String.length (extname pkgPath)) in
      let b := browser pkg in
      if is_string (get b pkgPath)
      then Return (set_main pkg (get b pkgPath), mark_modified st)
      else if is_boolean (get b pkgPath)
      then Return (pkg, disable emptyPath st)
      else if is_string (get b ("./" ++ pkgPath))
      then Return (set_main pkg (get b ("./" ++ pkgPath)), mark_modified st)
      else if is_boolean (get b ("./" ++ pkgPath))
      then Return (pkg, disable emptyPath st)
      else if is_string (get b ("./" ++ pkgPath ++ ".js"))
      then Return (set_main pkg (get b ("./" ++ pkgPath ++ ".js")), mark_modified st)
      else if is_boolean (get b ("./" ++ pkgPath ++ ".js"))
      then Return (pkg, disable emptyPath st)
      else if is_string (get b ("./" ++ pkgBasename ++ ".js"))
      then Return (set_main pkg (get b ("./" ++ pkgBasename ++ ".js")), mark_modified st)
      else if is_boolean (get b ("./" ++ pkgBasename ++ ".js"))
      then Return (pkg, disable emptyPath st)
      else Return (pkg, st)
  | _ => Throw "TypeError [ERR_INVALID_ARG_TYPE]: The path argument must be of type string"
  end.

Definition packageFilter (modPath emptyPath : string) (pkg0 : packageJSON)
           (st : resolution) : completion (packageJSON * resolution) :=
  let pkgMain := main pkg0 in
  let pkg1 := if truthy (module pkg0) then set_main pkg0 (module pkg0) else pkg0 in
  if is_string (browser pkg1) then Return (set_main pkg1 (browser pkg1), st)
  else if String.eqb (typeof (browser pkg1)) "object" && truthy (browser pkg1)
  then
    if truthy (Str modPath) then resolveOrModify (Str modPath) pkg1 emptyPath st
    else if truthy pkgMain then resolveOrModify pkgMain pkg1 emptyPath st
    else if truthy (module pkg1) then resolveOrModify (module pkg1) pkg1 emptyPath st
    else Return (pkg1, st)
  else Return (pkg1, st).

Definition pathFilter (st : resolution) (pkg : packageJSON)
           (fullPath relativePath : string) : value :=
  if modified st then main pkg else Str relativePath.

(** [(err, p) => { if (result.resolved) return; if (err) reject(err); resolve(p); }] *)
Definition callback (err : option string) (p : value) (st : resolution) : promise :=
  if resolved st then outcome st
  else
    match err with
    | Some e => settle (Fulfilled p) (settle (Rejected e) (outcome st))
    | None => settle (Fulfilled p) (outcome st)
    end.

(** The hooks answering the library's calls. *)
Fixpoint drive (modPath emptyPath : string) (r : run) (st : resolution) : ending :=
  match r with
  | CallPackageFilter pkg k =>
      match packageFilter modPath emptyPath pkg st with
      | Return (pkg', st') => drive modPath emptyPath (k pkg') st'
      | Throw e => Escaped e (outcome st)
      end
  | CallPathFilter pkg fullPath relativePath k =>
      drive modPath emptyPath (k (pathFilter st pkg fullPath relativePath)) st
  | CallBack err p => Finished (callback err p st)
  end.

Definition emptyPath_of (hqroot : string) : string :=
  path_resolve hqroot "hq-empty-module.js".

Definition modName_of (dpath : string) : string :=
  last (split dpath "/node_modules/") "".

Definition modPath_of (dpath : string) : string :=
  join (tl (split (modName_of dpath) "/")) "/".

Definition modResolve_of (dpath : string) : string :=
  if isCore (modName_of dpath) then modName_of dpath ++ "/" else modName_of dpath.

Definition resolvePackageFrom (basedir dpath hqroot : string) : ending :=
  let emptyPath := emptyPath_of hqroot in
  let modPath := modPath_of dpath in
  let modResolve := modResolve_of dpath in
  drive modPath emptyPath (resolvePackage modResolve basedir resolve_extensions) initial.

(** The hooks are reached at [r'] in state [st'] when the library's run [r]
    is answered from state [st]. *)
Inductive reaches (modPath emptyPath : string)
  : run -> resolution -> run -> resolution -> Prop :=
| reaches_here r st : reaches modPath emptyPath r st r st
| reaches_package pkg k st pkg' st' r'' st'' :
    packageFilter modPath emptyPath pkg st = Return (pkg', st') ->
    reaches modPath emptyPath (k pkg') st' r'' st'' ->
    reaches modPath emptyPath (CallPackageFilter pkg k) st r'' st''
| reaches_path pkg fullPath relativePath k st r'' st'' :
    reaches modPath emptyPath (k (pathFilter st pkg fullPath relativePath)) st r'' st'' ->
    reaches modPath emptyPath (CallPathFilter pkg fullPath relativePath k) st r'' st''.

(** The first of the looked-up keys whose value is a string or a boolean,
    with that value. *)
Fixpoint first_match (b : value) (keys : list string) : option (string * value) :=
  match keys with
  | [] => None
  | key :: rest =>
      if is_string (get b key) || is_boolean (get b key) then Some (key, get b key)
      else first_match b rest
  end.

End Resolver.

(** A model of [path.extname] on POSIX paths: the suffix of the last
    segment from its last dot on, empty when there is no dot, when the
    only dot opens the segment, and for the segment [..]. *)
Fixpoint last_dot_suffix (s : string) : option string :=
  match s with
  | EmptyString => None
  | String c s' =>
      match last_dot_suffix s' with
      | Some ext => Some ext
      | None => if Ascii.eqb c "." then Some s else None
      end
  end.

Definition posix_extname (p : string) : string :=
  let segment := last (filter (fun x => negb (String.eqb x "")) (split p "/")) "" in
  match segment with
  | EmptyString => ""
  | String _ rest =>
      if String.eqb segment ".." then ""
      else match last_dot_suffix rest with Some ext => ext | None => "" end
  end.

(** The promise is pending until disabled, and then holds the empty-module
    path. *)
Definition open_or_disabled (emptyPath : string) (st : resolution) : Prop :=
  (resolved st = false /\ outcome st = Pending) \/
  (resolved st = true /\ outcome st = Fulfilled (Str emptyPath)).

(** The path whose keys the descriptor filter looks up in a [browser]
    mapping: the requested sub-path, else the descriptor's own [main], else
    its [module]; [None] when all three are unset. *)
Definition lookup_path (modPath : string) (pkg : packageJSON) : option value :=
  if truthy (Str modPath) then Some (Str modPath)
  else if truthy (main pkg) then Some (main pkg)
  else if truthy (module pkg) then Some (module pkg)
  else None.

(** The state of the promise when the call has ended. *)
Definition promise_of (e : ending) : promise :=
  match e with
  | Finished p => p
  | Escaped _ p => p
  end.

(** Instances for examples: [path.resolve] of an absolute directory and a
    plain file name, a platform without built-in modules, and a run of the
    library over a single package found in [dir] for the request of the
    file [relativePath] in it: the descriptor is filtered, the path filter
    is asked, and the file its answer names in [dir] is reported. *)
Definition posix_resolve (dir file : string) : string := dir ++ "/" ++ file.

Definition no_core (name : string) : bool := false.

Definition after_filter (dir relativePath : string) : packageJSON -> run :=
  fun pkg' =>
    CallPathFilter pkg' (dir ++ "/" ++ relativePath) relativePath (fun answer =>
      CallBack None (Str (dir ++ "/" ++ to_string answer))).

Definition single_package_run (pkg : packageJSON) (dir relativePath : string)
  : string -> string -> list string -> run :=
  fun _ _ _ => CallPackageFilter pkg (after_filter dir relativePath).

(** Descriptors for examples: one key variant disabled while the exact key
    is replaced, one replaced while the exact key is disabled, and one
    whose only entry holds [true]. *)
Definition replaced_then_disabled : packageJSON :=
  {| browser := Obj [("lib/foo.js", Str "./lib/bar.js"); ("./lib/foo.js", Bool false)];
     main := Str "index.js"; module := Undefined; version := Str "1.0.0" |}.


Definition enabled_by_true : packageJSON :=
  {| browser := Obj [("./lib/foo.js", Bool true)];
     main := Str "index.js"; module := Undefined; version := Str "1.0.0" |}.

Definition main_enabled_by_true : packageJSON :=
  {| browser := Obj [("./index.js", Bool true)];
     main := Str "index.js"; module := Undefined; version := Str "1.0.0" |}.

Definition module_enabled_by_true : packageJSON :=
  {| browser := Obj [("./esm/index.js", Bool true)];
     main := Undefined; module := Str "esm/index.js"; version := Str "1.0.0" |}.

Definition disabled_by_false : packageJSON :=
  {| browser := Obj [("./lib/foo.js", Bool false)];
     main := Str "index.js"; module := Undefined; version := Str "1.0.0" |}.


(* ===================================================================== *)
(** ** Listener bootstrap *)
(* ===================================================================== *)

Definition MAX_RETRY : Z := 30.

(** The calls [getFreeServer] can still make once it is called with the
    counter [retry]. *)
Definition attempts_left (retry : Z) : nat := Z.to_nat (MAX_RETRY + 2 - retry).
Arguments attempts_left : simpl never.

(** What [getFreeServer] resolves with: the certificate paths relative to
    the root, and the server with the port it listens on and its protocol. *)
Record listener : Type :=
  { certs : list string; server_port : Z; protocol : string }.

Section Bootstrap.

(** [server.listen(port, host, ...)]: [None] when the listening callback
    runs, [Some err] when the server emits [error] with [err]. *)
Variable listen : Z -> option string.

Variables (certificates : list string) (root s : string).

Equations? getFreeServer (port retry : Z) : completion listener
  by wf (attempts_left retry) lt :=
  getFreeServer port retry with listen port := {
    | None =>
        Return {| certs := map (fun crt => drop (String.length root) crt) certificates;
                  server_port := port;
                  protocol := "http" ++ s |};
    | Some err with Z_gt_dec retry MAX_RETRY := {
        | left _ => Throw err;
        | right _ => getFreeServer (port + 1) (retry + 1) } }.
Proof. unfold attempts_left, MAX_RETRY in *. lia. Qed.

End Bootstrap.

(** [cfg]: the certificate and the key among the first two files found,
    each file standing for its contents. *)
Definition tls_material (certificates : list string) : option string * option string :=
  fold_left
    (fun (cfg : option string * option string) crt =>
       if endsWith crt "key.pem" then (fst cfg, Some crt) else (Some crt, snd cfg))
    (firstn 2 certificates) (None, None).

(** [getServer].  [found] is the outcome of the search for [.pem] files
    and [read_all] that of reading the given files together: [None] when
    all are read, [Some err] when a read is rejected with [err].  Either
    failure ends [getServer] before any bind. *)
Definition getServer (listen : Z -> option string) (found : completion (list string))
           (read_all : list string -> option string) (root : string) (port : Z)
  : completion listener :=
  match found with
  | Throw err => Throw err
  | Return certificates =>
      match read_all (firstn 2 certificates) with
      | Some err => Throw err
      | None =>
          let secure :=
            match tls_material certificates with
            | (Some _, Some _) => true
            | _ => false
            end in
          getFreeServer listen certificates root (if secure then "s" else "") port 0
      end
  end.

(** The retry rule as the specification words it: a failed bind is retried
    on the next port only while the number of attempts made, this one
    included, has not exceeded 30.  [allowed] bounds the recursion. *)
Fixpoint bind_by_attempts (listen : Z -> option string) (allowed : nat)
         (port attempts : Z) : completion Z :=
  match listen port with
  | None => Return port
  | Some err =>
      match allowed with
      | O => Throw err
      | S allowed' =>
          if (attempts >? 30)%Z then Throw err
          else bind_by_attempts listen allowed' (port + 1) (attempts + 1)
      end
  end.

(* ===================================================================== *)
(** ** The remaining helpers of the file *)
(* ===================================================================== *)

(** [s.includes(needle)]. *)
Fixpoint contains (s needle : string) : bool :=
  String.prefix needle s ||
  match s with
  | String _ s' => contains s' needle
  | EmptyString => false
  end.

Definition matchesModule (filePath name : string) : bool :=
  String.eqb filePath ("/node_modules/" ++ name) ||
  startsWith filePath ("/node_modules/" ++ name ++ "/").

Definition isTest (filePath : string) : bool := startsWith filePath "/test/".

Definition isVendor (filePath : string) : bool := startsWith filePath "/node_modules/".

Definition isPolyfill (filePath : string) : bool :=
  matchesModule filePath "core-js" ||
  matchesModule filePath "buffer" ||
  matchesModule filePath "base64-js" ||
  matchesModule filePath "ieee754" ||
  matchesModule filePath "process" ||
  matchesModule filePath "regenerator-runtime".

Definition isInternal (filePath : string) : bool :=
  contains filePath "/hq-livereload.js" || contains filePath "/hq-empty-module.js".

(** [isCertificate(filePath, app)], [app] being given by its [certs]. *)
Definition isCertificate (filePath : string) (app_certs : list string) : bool :=
  includes app_certs filePath.

Definition isDefaultFavicon (filePath : string) : bool := endsWith filePath "favicon.ico".

Definition isAngularCompiler (filePath : string) : bool :=
  endsWith filePath "compiler/fesm5/compiler.js".

Definition getLinkType (ext name : string) : string :=
  if includes [".js"; ".jsx"; ".es6"; ".vue"; ".svelte"; ".ts"; ".tsx"; ".coffee"; ".mjs"] ext
  then if Regex.test WORKER_REXP name then "worker" else "script"
  else if String.eqb ext ".json" then "script"
  else if includes [".scss"; ".sass"; ".less"; ".css"] ext then "style"
  else if includes [".pug"; ".html"] ext then "document"
  else if includes [".woff"; ".woff2"] ext then "font"
  else if includes [".gif"; ".png"; ".jpg"; ".jpeg"; ".svg"; ".webp"] ext then "image"
  else "".

(** [urlPath.replace(/\//g, '\\')]: every slash becomes a backslash. *)
Fixpoint backslashes (s : string) : string :=
  match s with
  | EmptyString => EmptyString
  | String c s' => String (if Ascii.eqb c "/" then "\"%char else c) (backslashes s')
  end.

(** [urlToPath], [sep] being [path.sep]. *)
Definition urlToPath (sep urlPath : string) : string :=
  if String.eqb sep "\" then backslashes urlPath else urlPath.

(** [getModulePath], [pathToURL] being the URL form of a file path. *)
Definition getModulePath (pathToURL : string -> string) (filepath : string) : string :=
  "/node_modules/" ++ last (split (pathToURL filepath) "/node_modules/") "".

(** An entry of [os.networkInterfaces()]. *)
Record interface : Type := { family : string; internal : bool; address : string }.

(** The inner loop of [getLocalIP]. *)
Fixpoint first_external (intfs : list interface) : option interface :=
  match intfs with
  | [] => None
  | intf :: rest =>
      if String.eqb (family intf) "IPv4" && negb (internal intf) then Some intf
      else first_external rest
  end.

(** [getLocalIP], on the values of [os.networkInterfaces()]; [None] is
    [null]. *)
Fixpoint getLocalIP (interfaces : list (list interface)) : option interface :=
  match interfaces with
  | [] => None
  | intfs :: rest =>
      match first_external intfs with
      | Some intf => Some intf
      | None => getLocalIP rest
      end
  end.

(** [const { address: LOCAL_IP } = getLocalIP()], evaluated when the module
    is loaded. *)
Definition LOCAL_IP (interfaces : list (list interface)) : completion string :=
  match getLocalIP interfaces with
  | Some intf => Return (address intf)
  | None => Throw "TypeError: Cannot destructure property 'address' of null"
  end.

(** The cache after a sequence of reads, each on the disk as it is at the
    time. *)
Fixpoint after_reads (path_join : string -> string -> string) (m : cache)
         (reads : list (Disk * option string)) : cache :=
  match reads with
  | [] => m
  | (disk, dirPath) :: rest =>
      after_reads path_join (snd (readPackageJSON_at path_join disk m dirPath)) rest
  end.

(** A run of the library in which no filtered descriptor has a [browser]
    mapping. *)
Inductive plain : run -> Prop :=
| plain_package pkg k :
    is_mapping (browser pkg) = false -> (forall pkg', plain (k pkg')) ->
    plain (CallPackageFilter pkg k)
| plain_path pkg fullPath relativePath k :
    (forall answer, plain (k answer)) ->
    plain (CallPathFilter pkg fullPath relativePath k)
| plain_callback err p : plain (CallBack err p).

(** What the library reports to the final callback when its hooks leave
    its choices alone: the descriptor filter only normalises [main], the
    path filter answers the relative path. *)
Fixpoint verdict (normalise : packageJSON -> packageJSON) (r : run) : promise :=
  match r with
  | CallPackageFilter pkg k => verdict normalise (k (normalise pkg))
  | CallPathFilter pkg fullPath relativePath k => verdict normalise (k (Str relativePath))
  | CallBack (Some e) p => Rejected e
  | CallBack None p => Fulfilled p
  end.

(** The normalisation of [main] by the descriptor filter for a descriptor
    without a [browser] mapping: [module], then a [browser] string. *)
Definition normalise_main (pkg : packageJSON) : packageJSON :=
  let pkg1 := if truthy (module pkg) then set_main pkg (module pkg) else pkg in
  if is_string (browser pkg1) then set_main pkg1 (browser pkg1) else pkg1.

(** Instances for examples: [path.join] on absolute POSIX paths, with [..]
    taking the parent directory and the root being its own parent; and a
    disk that holds nothing. *)
Definition parent_directory (dir : string) : string :=
  match join (removelast (split dir "/")) "/" with
  | EmptyString => "/"
  | up => up
  end.

Definition normal_join (dir name : string) : string :=
  if String.eqb name ".." then parent_directory dir
  else if String.eqb dir "/" then "/" ++ name
  else dir ++ "/" ++ name.

Definition empty_disk : Disk :=
  {| exists_on := fun _ => false; read_json := fun _ => None |}.

(** No occurrence of [sep] in [s]. *)
Definition no_occurrence (sep s : string) : Prop :=
  forall i : nat, String.prefix sep (drop i s) = false.

(** The decimal numeral of a natural number. *)
Definition decimal (n : nat) : string := NilEmpty.string_of_uint (Nat.to_uint n).

(* ===================================================================== *)
(** * Properties *)
(* ===================================================================== *)

(** ** Strings *)

Lemma append_assoc (a b c : string) : (a ++ b) ++ c = a ++ b ++ c.
Proof. induction a as [|x a IH]; simpl; [reflexivity | now rewrite IH]. Qed.

Lemma append_empty_r (a : string) : a ++ "" = a.
Proof. induction a as [|x a IH]; simpl; [reflexivity | now rewrite IH]. Qed.

(** ** Regular expressions *)

Module RegexFacts.
Import Regex.

Lemma last_char_app prev a b : last_char prev (a ++ b) = last_char (last_char prev a) b.
Proof. revert prev; induction a as [|x a IH]; intros prev; simpl; [reflexivity | apply IH]. Qed.

Lemma match_lit_iff ci lit prev s k :
  match_lit ci lit prev s k = true <->
  exists tok rest, s = tok ++ rest /\ same_text ci lit tok = true /\
                   k (last_char prev tok) rest = true.
Proof.
  revert prev s; induction lit as [|l lit IH]; intros prev s; simpl.
  - split.
    + intros H. exists "", s. auto.
    + intros (tok & rest & -> & Ht & Hk). destruct tok; [exact Hk | discriminate].
  - destruct s as [|c s].
    + split; [discriminate|].
      intros (tok & rest & Hs & Ht & _). destruct tok; discriminate.
    + rewrite andb_true_iff, IH. split.
      * intros (Hc & tok & rest & -> & Ht & Hk).
        exists (String c tok), rest. simpl. rewrite Hc, Ht. auto.
      * intros (tok & rest & Hs & Ht & Hk). destruct tok as [|c' tok]; [discriminate|].
        simpl in Hs. injection Hs as <- ->. simpl in Ht, Hk.
        apply andb_true_iff in Ht as [Hc Ht]. split; [exact Hc|]. eauto.
Qed.

Lemma match_star_iff cls prev s k :
  match_star cls prev s k = true <->
  exists run rest, s = run ++ rest /\ all_chars cls run = true /\
                   k (last_char prev run) rest = true.
Proof.
  revert prev; induction s as [|c s IH]; intros prev; simpl.
  - split.
    + intros H. exists "", "". auto.
    + intros (run & rest & Hs & _ & Hk). destruct run; [|discriminate].
      simpl in Hs. subst rest. exact Hk.
  - destruct (cls c) eqn:Hc.
    + rewrite orb_true_iff, IH. split.
      * intros [(run & rest & -> & Hr & Hk) | Hk].
        -- exists (String c run), rest. simpl. rewrite Hc. auto.
        -- exists "", (String c s). auto.
      * intros (run & rest & Hs & Hr & Hk). destruct run as [|c' run].
        -- simpl in Hs. subst rest. right. exact Hk.
        -- simpl in Hs. injection Hs as <- ->. simpl in Hr, Hk.
           apply andb_true_iff in Hr as [_ Hr]. left. eauto.
    + split.
      * intros Hk. exists "", (String c s). auto.
      * intros (run & rest & Hs & Hr & Hk). destruct run as [|c' run].
        -- simpl in Hs. subst rest. exact Hk.
        -- simpl in Hs. injection Hs as <- ->. simpl in Hr. rewrite Hc in Hr. discriminate.
Qed.

Lemma search_iff ci p prev s :
  search ci p prev s = true <->
  exists before rest, s = before ++ rest /\
                      matches ci p (last_char prev before) rest (fun _ _ => true) = true.
Proof.
  revert prev; induction s as [|c s IH]; intros prev; simpl.
  - rewrite orb_false_r. split.
    + intros H. exists "", "". auto.
    + intros (before & rest & Hs & H). destruct before; [|discriminate].
      simpl in Hs. subst rest. exact H.
  - rewrite orb_true_iff, IH. split.
    + intros [H | (before & rest & -> & H)].
      * exists "", (String c s). auto.
      * exists (String c before), rest. auto.
    + intros (before & rest & Hs & H). destruct before as [|c' before].
      * simpl in Hs. subst rest. left. exact H.
      * simpl in Hs. injection Hs as <- ->. right. eauto.
Qed.

Lemma is_lower_range c : is_lower c = true <-> 97 <= nat_of_ascii c <= 122.
Proof.
  unfold is_lower. cbv zeta. rewrite andb_true_iff, !Nat.leb_le. reflexivity.
Qed.

(** A character equal to a lower-case letter up to case is a letter. *)
Lemma same_letter_word l c :
  is_lower l = true -> same_char true l c = true -> is_word c = true.
Proof.
  intros Hl H. unfold same_char in H. apply Ascii.eqb_eq in H.
  unfold canonicalize in H. rewrite Hl in H.
  apply is_lower_range in Hl.
  unfold is_word. destruct (is_lower c) eqn:Hc.
  - now rewrite !orb_true_r.
  - subst c. unfold is_upper. cbv zeta.
    rewrite nat_ascii_embedding by lia.
    replace (65 <=? nat_of_ascii l - 32)%nat with true by (symmetry; apply Nat.leb_le; lia).
    replace (nat_of_ascii l - 32 <=? 90)%nat with true by (symmetry; apply Nat.leb_le; lia).
    simpl. now rewrite orb_true_r.
Qed.

Lemma is_digit_word c : is_digit c = true -> is_word c = true.
Proof. intros H. unfold is_word. now rewrite H. Qed.

(** After a non-empty text of letters the position follows a word
    character. *)
Lemma same_text_last_word lit tok prev :
  all_chars is_lower lit = true -> lit <> "" -> same_text true lit tok = true ->
  word_before (last_char prev tok) = true.
Proof.
  revert tok prev; induction lit as [|l lit IH]; intros tok prev Hl Hne Ht; [congruence|].
  destruct tok as [|c tok]; [discriminate|]. simpl in *.
  apply andb_true_iff in Hl as [Hl Hl'], Ht as [Hc Ht].
  destruct lit as [|l' lit].
  - destruct tok; [|discriminate]. simpl. eapply same_letter_word; eauto.
  - apply IH; auto. discriminate.
Qed.

Lemma digits_last_word run prev :
  all_chars is_digit run = true -> word_before prev = true ->
  word_before (last_char prev run) = true.
Proof.
  revert prev; induction run as [|c run IH]; intros prev Hr Hp; simpl in *; [exact Hp|].
  apply andb_true_iff in Hr as [Hc Hr]. apply IH; [exact Hr|]. simpl. now apply is_digit_word.
Qed.

End RegexFacts.

(** ** Path classifier *)

Section ClassifierFacts.
Import Regex RegexFacts.

Lemma after_token_iff lit tok prev s :
  all_chars is_lower lit = true -> lit <> "" -> same_text true lit tok = true ->
  after_token (last_char prev tok) s = true <->
  exists run rest, s = run ++ rest /\ all_chars is_digit run = true /\
                   word_after rest = false.
Proof.
  intros Hl Hne Ht. unfold after_token. rewrite match_star_iff.
  assert (Hw : forall run, all_chars is_digit run = true ->
                 word_before (last_char (last_char prev tok) run) = true).
  { intros run Hr. apply digits_last_word; [exact Hr|].
    eapply same_text_last_word; eauto. }
  split; intros (run & rest & -> & Hr & H); exists run, rest;
    (split; [reflexivity|]); (split; [exact Hr|]); rewrite (Hw run Hr) in *.
  - rewrite andb_true_r in H. destruct (word_after rest); [discriminate | reflexivity].
  - now rewrite H.
Qed.

Lemma worker_match_iff prev s :
  matches true (source WORKER_REXP) prev s (fun _ _ => true) = true <->
  exists tok run rest,
    s = tok ++ run ++ rest /\
    (same_text true "worker" tok = true \/ same_text true "sw" tok = true) /\
    all_chars is_digit run = true /\ word_after rest = false.
Proof.
  change (matches true (source WORKER_REXP) prev s (fun _ _ => true))
    with (match_lit true "worker" prev s after_token || match_lit true "sw" prev s after_token).
  rewrite orb_true_iff, !match_lit_iff. split.
  - intros [(tok & s' & -> & Ht & H) | (tok & s' & -> & Ht & H)];
      (eapply after_token_iff in H; [| | | exact Ht]; [|reflexivity|discriminate]);
      destruct H as (run & rest & -> & Hr & Hw); exists tok, run, rest; auto.
  - intros (tok & run & rest & -> & [Ht | Ht] & Hr & Hw); [left | right];
      exists tok, (run ++ rest); (split; [reflexivity|]); (split; [exact Ht|]);
      (eapply after_token_iff; [| | exact Ht |]; [reflexivity | discriminate |]); eauto.
Qed.

(** C7, as the code has it.  The expression is tested on the whole request
    path, directories included: [isWorker] holds exactly when the path
    contains [worker] or [sw] in any letter case, followed by any number of
    decimal digits and then by the end of the path or a character that is
    not a word character.  In particular it holds of [/src/worker2.js] and
    not of [/src/workers-utils.js]. *)
Theorem isWorker_whole_path :
  (forall filePath : string,
      isWorker filePath = true <->
      exists before token digits rest,
        filePath = before ++ token ++ digits ++ rest /\
        (same_text true "worker" token = true \/ same_text true "sw" token = true) /\
        all_chars is_digit digits = true /\ word_after rest = false) /\
  isWorker "/src/worker2.js" = true /\
  isWorker "/src/workers-utils.js" = false.
Proof.
  split; [|split; reflexivity].
  intros filePath. unfold isWorker, test. rewrite search_iff. split.
  - intros (before & s & -> & H). apply worker_match_iff in H.
    destruct H as (tok & run & rest & -> & H). exists before, tok, run, rest. auto.
  - intros (before & tok & run & rest & -> & H). exists before, (tok ++ run ++ rest).
    split; [reflexivity|]. apply worker_match_iff. exists tok, run, rest. auto.
Qed.

(** C7 as stated fails: a directory named [sw] makes [isWorker] hold of a
    path whose filename, [main.js], has no such token. *)
Lemma isWorker_directory_counterexample :
  ~ (forall filePath : string, isWorker filePath = isWorker_by_filename filePath).
Proof.
  intros H. specialize (H "/sw/main.js"). vm_compute in H. discriminate.
Qed.

End ClassifierFacts.

(** C8.  On every recognised source extension, [getResType] applied twice
    gives what it gives applied once. *)
Theorem getResType_idempotent (ext : string) :
  isSource ext = true -> getResType (getResType ext) = getResType ext.
Proof.
  unfold isSource, includes, source_extensions. simpl existsb.
  rewrite !orb_true_iff, !String.eqb_eq.
  intros H. repeat (destruct H as [H | H]; [subst ext; reflexivity|]).
  discriminate.
Qed.

Lemma getResType_idempotent_witness :
  isSource ".scss" = true /\ getResType (getResType ".scss") = getResType ".scss".
Proof.
  split; [reflexivity | apply (getResType_idempotent ".scss"); reflexivity].
Defined.

(** ** Version helper *)

Example getVersion_semver :
  getVersion (Obj [("vue", Str "^2.6.11")]) "vue"
  = Return (Some {| major := Some 2%Z; minor := Some 6%Z; patch := Some 11%Z |}).
Proof. reflexivity. Qed.

Example getVersion_two_numbers :
  getVersion (Obj [("vue", Str "2.x")]) "vue"
  = Return (Some {| major := Some 2%Z; minor := None; patch := None |}).
Proof. reflexivity. Qed.

Lemma digit_runs_none (v : string) :
  Regex.all_chars (fun c => negb (Regex.is_digit c)) v = true ->
  Regex.digit_runs_from None v = [].
Proof.
  induction v as [|c v IH]; simpl; [reflexivity|].
  intros H. apply andb_true_iff in H as [Hc Hv].
  apply negb_true_iff in Hc. rewrite Hc. auto.
Qed.

Lemma has_own_assoc (k : string) (props : list (string * value)) :
  assoc k props <> Undefined -> has_own k props = true.
Proof.
  induction props as [|[k' v] props IH]; simpl; [congruence|].
  destruct (String.eqb k k'); [reflexivity | exact IH].
Qed.

(** An own string entry is what [o[k]] finds. *)
Lemma lookup_own_string (o : value) (k v : string) :
  get o k = Str v -> lookup o k = Data (Str v).
Proof.
  destruct o; simpl; try discriminate.
  intros H. rewrite has_own_assoc by (rewrite H; discriminate). now rewrite H.
Qed.

(** C10, as the code has it.  [getVersion] returns the empty record when
    [dependencies] is absent (falsy), and when it is an object without an
    own entry for [name], unless [name] is the name of a member of
    [Object.prototype]: the lookup then finds the inherited member and the
    call throws.  When the entry is a present (non-empty) string without
    any decimal digit, the digit search yields [null] and destructuring it
    throws. *)
Theorem getVersion_absent_or_digitless
        (dependencies : value) (props : list (string * value)) (name v : string) :
  (truthy dependencies = false -> getVersion dependencies name = Return None) /\
  (dependencies = Obj props -> has_own name props = false ->
   getVersion dependencies name =
   if member_of name object_prototype_names
   then Throw "TypeError: version.match is not a function"
   else Return None) /\
  (truthy dependencies = true -> get dependencies name = Str v -> v <> "" ->
   Regex.all_chars (fun c => negb (Regex.is_digit c)) v = true ->
   getVersion dependencies name = Throw "TypeError: null is not iterable").
Proof.
  unfold getVersion. split; [|split].
  - intros H. now rewrite H.
  - intros -> Hown. cbn [truthy negb lookup]. rewrite Hown. unfold from_prototype.
    cbn [member_of existsb orb].
    destruct (member_of name object_prototype_names) eqn:E; [|reflexivity].
    destruct (String.eqb_spec name "__proto__") as [-> | _]; reflexivity.
  - intros Hd Hv Hne Hdig. rewrite Hd, (lookup_own_string _ _ _ Hv). cbn [negb truthy].
    destruct (String.eqb_spec v ""); [contradiction|]. cbn [negb read_version].
    unfold Regex.match_all_digits. now rewrite digit_runs_none.
Qed.

Lemma getVersion_absent_or_digitless_witness :
  getVersion Undefined "vue" = Return None /\
  getVersion (Obj [("react", Str "^16.0.0")]) "vue" = Return None /\
  getVersion (Obj [("react", Str "^16.0.0")]) "toString"
  = Throw "TypeError: version.match is not a function" /\
  getVersion (Obj [("vue", Str "latest")]) "vue" = Throw "TypeError: null is not iterable".
Proof.
  split; [|split; [|split]].
  - apply (proj1 (getVersion_absent_or_digitless Undefined [] "vue" "")). reflexivity.
  - apply (proj1 (proj2 (getVersion_absent_or_digitless
                           (Obj [("react", Str "^16.0.0")]) [("react", Str "^16.0.0")]
                           "vue" "")) eq_refl eq_refl).
  - apply (proj1 (proj2 (getVersion_absent_or_digitless
                           (Obj [("react", Str "^16.0.0")]) [("react", Str "^16.0.0")]
                           "toString" "")) eq_refl eq_refl).
  - apply (proj2 (proj2 (getVersion_absent_or_digitless
                           (Obj [("vue", Str "latest")]) [] "vue" "latest")));
      [reflexivity | reflexivity | discriminate | reflexivity].
Defined.

(** C10 as stated fails: the empty object holds no entry for
    [constructor], yet the lookup finds the inherited member and the call
    throws instead of returning the empty record. *)
Lemma getVersion_inherited_counterexample :
  has_own "constructor" [] = false /\
  getVersion (Obj []) "constructor" <> Return None /\
  getVersion (Obj []) "constructor" = Throw "TypeError: version.match is not a function".
Proof. repeat split; try reflexivity. vm_compute. discriminate. Qed.

(** ** Extension prober *)

(** C4, as the code has it.  For the path [/p/index] markup is probed
    first: whenever [/p/index.html] exists the prober returns [.html],
    when it is alone and also when [/p/index.jsx] exists beside it. *)
Theorem findExistingExtension_index_html (pathExists : string -> bool) :
  pathExists "/p/index.html" = true ->
  findExistingExtension pathExists "/p/index" = Return ".html".
Proof.
  intros H. unfold findExistingExtension.
  change ("/p/index" ++ ".html") with "/p/index.html". rewrite H. reflexivity.
Qed.

Lemma findExistingExtension_index_html_witness :
  let both := fun p => String.eqb p "/p/index.jsx" || String.eqb p "/p/index.html" in
  both "/p/index.jsx" = true /\ both "/p/index.html" = true /\
  findExistingExtension both "/p/index" = Return ".html".
Proof.
  intros both. split; [reflexivity|]. split; [reflexivity|].
  apply (findExistingExtension_index_html both). reflexivity.
Defined.

(** C4 as stated fails: with both [/p/index.jsx] and [/p/index.html] on
    disk the prober does not return [.jsx]. *)
Lemma findExistingExtension_index_jsx_counterexample :
  let both := fun p => String.eqb p "/p/index.jsx" || String.eqb p "/p/index.html" in
  findExistingExtension both "/p/index" <> Return ".jsx".
Proof. intros both. vm_compute. discriminate. Qed.

(** C5, as the code has it.  The prober returns the first candidate that
    exists, in the fixed order [.html] (only when the probed path ends with
    the characters [index]), [.jsx], [.vue], [.svelte], [.mjs], [.json],
    [.ts], [.tsx], [.coffee], [.es6], [.js], the bare path, and [.html]
    again when the path does not end with [index]; when none exists it
    throws an error whose message carries the probed path. *)
Theorem findExistingExtension_order (pathExists : string -> bool) (filepath : string) :
  findExistingExtension pathExists filepath =
  match first_existing pathExists filepath (probe_order (endsWith filepath "index")) with
  | Some ext => Return ext
  | None => Throw ("File " ++ filepath ++ " not found")
  end.
Proof.
  unfold findExistingExtension, probe_order.
  destruct (endsWith filepath "index"); simpl; rewrite append_empty_r;
    repeat match goal with
           | |- context [if pathExists ?p then _ else _] => destruct (pathExists p)
           end; reflexivity.
Qed.

(** C5 as stated fails: the test is on the last characters of the path,
    not on its basename, so [/p/reindex] is probed for markup first. *)
Lemma findExistingExtension_basename_counterexample :
  let disk := fun p => String.eqb p "/p/reindex.html" || String.eqb p "/p/reindex.jsx" in
  findExistingExtension disk "/p/reindex" = Return ".html" /\
  findExistingExtension_by_basename disk "/p/reindex" = Return ".jsx" /\
  findExistingExtension disk "/p/reindex" <> findExistingExtension_by_basename disk "/p/reindex".
Proof. intros disk. repeat split; try reflexivity. vm_compute. discriminate. Qed.

(** ** Entry resolver *)

Example resolvePackageMain_module_first :
  resolvePackageMain posix_join
    (sample_disk (Obj [("main", Str "index.js"); ("module", Str "esm/index.js");
                       ("browser", Str "dist/browser.js")]))
    0 [] "/app/node_modules/pkg" false
  = Some (Return (Data (Str "esm/index.js")),
          [("/app/node_modules/pkg",
            {| browser := Str "dist/browser.js"; main := Str "index.js";
               module := Str "esm/index.js"; version := Undefined |})]).
Proof. reflexivity. Qed.

Example resolvePackageMain_browser_mapping :
  option_map fst (resolvePackageMain posix_join
    (sample_disk (Obj [("main", Str "index.js");
                       ("browser", Obj [("./index.js", Str "./browser.js")])]))
    0 [] "/app/node_modules/pkg" false)
  = Some (Return (Data (Str "./browser.js"))).
Proof. reflexivity. Qed.

Example resolvePackageMain_index_probe :
  option_map fst (resolvePackageMain posix_join (sample_disk (Obj [("version", Str "1.0.0")]))
    0 [] "/app/node_modules/pkg" false)
  = Some (Return (Data (Str "index.js"))).
Proof. reflexivity. Qed.

Example resolvePackageMain_disabled_main :
  option_map fst (resolvePackageMain posix_join
    (sample_disk (Obj [("main", Str "index.js");
                       ("browser", Obj [("./index.js", Bool false)])]))
    0 [] "/app/node_modules/pkg" false)
  = Some (Return (Data (Str "index.js"))).
Proof. reflexivity. Qed.





Example browser_keys_with_extension :
  browser_keys posix_extname "lib/foo.ts"
  = ["lib/foo.ts"; "./lib/foo.ts"; "./lib/foo.ts.js"; "./lib/foo.js"].
Proof. reflexivity. Qed.

(** Without an extension the slice is [slice(0, -0)], the empty string. *)
Example browser_keys_without_extension :
  browser_keys posix_extname "lib/foo"
  = ["lib/foo"; "./lib/foo"; "./lib/foo.js"; "./.js"].
Proof. reflexivity. Qed.

Example modPath_of_subpath :
  modName_of "/node_modules/pkg/lib/foo.js" = "pkg/lib/foo.js" /\
  modPath_of "/node_modules/pkg/lib/foo.js" = "lib/foo.js" /\
  modPath_of "/node_modules/pkg" = "".
Proof. repeat split; reflexivity. Qed.

Lemma is_string_inv (v : value) : is_string v = true -> exists s, v = Str s.
Proof. destruct v; try discriminate. eauto. Qed.

Lemma is_boolean_inv (v : value) : is_boolean v = true -> exists b, v = Bool b.
Proof. destruct v; try discriminate. eauto. Qed.

Lemma is_mapping_not_string (v : value) : is_mapping v = true -> is_string v = false.
Proof. now destruct v. Qed.

Section ResolverFacts.

Variable extname : string -> string.
Variable path_resolve : string -> string -> string.
Variable isCore : string -> bool.
Variable resolvePackage : string -> string -> list string -> run.

(** The chain of [resolveOrModify] acts on the first looked-up key that
    holds a string or a boolean. *)
Lemma resolveOrModify_first_match pkgPath pkg emptyPath st :
  resolveOrModify extname (Str pkgPath) pkg emptyPath st =
  Return (match first_match (browser pkg) (browser_keys extname pkgPath) with
          | Some (_, Str r) => (set_main pkg (Str r), mark_modified st)
          | Some (_, Bool _) => (pkg, disable emptyPath st)
          | _ => (pkg, st)
          end).
Proof.
  unfold resolveOrModify, browser_keys, first_match.
  repeat match goal with
         | |- context [is_string (get ?b ?key)] =>
             destruct (get b key) as [| |?|?|?|?]; simpl; try reflexivity
         end.
Qed.

Lemma packageFilter_mapping modPath emptyPath pkg st :
  modPath <> "" -> is_mapping (browser pkg) = true ->
  packageFilter extname modPath emptyPath pkg st =
  resolveOrModify extname (Str modPath)
    (if truthy (module pkg) then set_main pkg (module pkg) else pkg) emptyPath st.
Proof.
  intros Hne Hmap. unfold packageFilter.
  assert (Hb : browser (if truthy (module pkg) then set_main pkg (module pkg) else pkg)
               = browser pkg) by now destruct (truthy (module pkg)).
  rewrite Hb, (is_mapping_not_string _ Hmap).
  unfold is_mapping in Hmap. rewrite Hmap.
  change (truthy (Str modPath)) with (negb (String.eqb modPath "")).
  destruct (String.eqb_spec modPath ""); [contradiction | reflexivity].
Qed.

(** With a requested sub-path the descriptor filter does not throw, and it
    leaves the shared state alone, flags it modified, or disables. *)
Lemma packageFilter_subpath modPath emptyPath pkg st :
  modPath <> "" ->
  exists pkg' st',
    packageFilter extname modPath emptyPath pkg st = Return (pkg', st') /\
    (st' = st \/ st' = mark_modified st \/ st' = disable emptyPath st).
Proof.
  intros Hne. unfold packageFilter.
  set (pkg1 := if truthy (module pkg) then set_main pkg (module pkg) else pkg).
  destruct (is_string (browser pkg1)); [eauto|].
  destruct (String.eqb (typeof (browser pkg1)) "object" && truthy (browser pkg1)); [|eauto].
  change (truthy (Str modPath)) with (negb (String.eqb modPath "")).
  destruct (String.eqb_spec modPath ""); [contradiction|]. cbn [negb].
  rewrite resolveOrModify_first_match.
  destruct (first_match _ _) as [[key [| |b|z|r|props]]|]; eauto 6.
Qed.

Lemma open_or_disabled_step emptyPath st st' :
  open_or_disabled emptyPath st ->
  st' = st \/ st' = mark_modified st \/ st' = disable emptyPath st ->
  open_or_disabled emptyPath st'.
Proof.
  intros Hst [-> | [-> | ->]]; [exact Hst | exact Hst |].
  right. split; [reflexivity|]. simpl. destruct Hst as [[_ ->] | [_ ->]]; reflexivity.
Qed.

Lemma disable_settles emptyPath st :
  open_or_disabled emptyPath st ->
  resolved (disable emptyPath st) = true /\
  outcome (disable emptyPath st) = Fulfilled (Str emptyPath).
Proof.
  intros Hst. split; [reflexivity|]. simpl.
  destruct Hst as [[_ ->] | [_ ->]]; reflexivity.
Qed.

Lemma reaches_drive modPath emptyPath r st r' st' :
  reaches extname modPath emptyPath r st r' st' ->
  drive extname modPath emptyPath r st = drive extname modPath emptyPath r' st'.
Proof.
  induction 1 as [| pkg k st pkg' st' r'' st'' Hf _ IH | pkg full rel k st r'' st'' _ IH];
    simpl; [reflexivity | now rewrite Hf | exact IH].
Qed.

Lemma reaches_open_or_disabled modPath emptyPath r st r' st' :
  modPath <> "" ->
  reaches extname modPath emptyPath r st r' st' ->
  open_or_disabled emptyPath st -> open_or_disabled emptyPath st'.
Proof.
  intros Hne. induction 1 as [| pkg k st pkg' st' r'' st'' Hf _ IH | ]; auto.
  intros Hst. apply IH.
  destruct (packageFilter_subpath modPath emptyPath pkg st Hne) as (p & t & Hp & Ht).
  rewrite Hp in Hf. injection Hf as <- <-.
  eapply open_or_disabled_step; eauto.
Qed.

(** Once disabled, nothing the library does changes the outcome. *)
Lemma drive_disabled modPath emptyPath r st :
  modPath <> "" ->
  resolved st = true -> outcome st = Fulfilled (Str emptyPath) ->
  drive extname modPath emptyPath r st = Finished (Fulfilled (Str emptyPath)).
Proof.
  intros Hne. revert st.
  induction r as [pkg k IH | pkg full rel k IH | err p]; intros st Hres Hout; simpl.
  - destruct (packageFilter_subpath modPath emptyPath pkg st Hne) as (p & t & -> & Ht).
    apply IH; destruct Ht as [-> | [-> | ->]]; simpl; auto. now rewrite Hout.
  - now apply IH.
  - unfold callback. now rewrite Hres, Hout.
Qed.

(** The library reaches the descriptor filter with a package whose first
    matching key holds a boolean: the call resolves to the empty module. *)
Lemma drive_first_match_boolean modPath emptyPath r st0 pkg k st key b :
  modPath <> "" ->
  open_or_disabled emptyPath st0 ->
  reaches extname modPath emptyPath r st0 (CallPackageFilter pkg k) st ->
  is_mapping (browser pkg) = true ->
  first_match (browser pkg) (browser_keys extname modPath) = Some (key, Bool b) ->
  drive extname modPath emptyPath r st0 = Finished (Fulfilled (Str emptyPath)).
Proof.
  intros Hne Hst0 Hreach Hmap Hfirst.
  rewrite (reaches_drive _ _ _ _ _ _ Hreach). simpl.
  rewrite (packageFilter_mapping _ _ _ _ Hne Hmap), resolveOrModify_first_match.
  assert (Hb : browser (if truthy (module pkg) then set_main pkg (module pkg) else pkg)
               = browser pkg) by now destruct (truthy (module pkg)).
  rewrite Hb, Hfirst.
  pose proof (reaches_open_or_disabled _ _ _ _ _ _ Hne Hreach Hst0) as Hst.
  destruct (disable_settles emptyPath st Hst) as [Hres Hout].
  now apply drive_disabled.
Qed.

Lemma open_or_disabled_initial emptyPath : open_or_disabled emptyPath initial.
Proof. left. split; reflexivity. Qed.

(** A key holding a boolean, no earlier key holding a string: the first
    match is a boolean. *)
Lemma first_match_boolean b earlier key later :
  is_boolean (get b key) = true ->
  (forall key', In key' earlier -> is_string (get b key') = false) ->
  exists key0 b0, first_match b (earlier ++ key :: later) = Some (key0, Bool b0).
Proof.
  intros Hkey. induction earlier as [|e earlier IH]; intros Hearlier; simpl.
  - rewrite Hkey, orb_true_r. destruct (is_boolean_inv _ Hkey) as [b0 ->]. eauto.
  - rewrite (Hearlier e (or_introl eq_refl)). simpl.
    destruct (is_boolean (get b e)) eqn:He.
    + destruct (is_boolean_inv _ He) as [b0 ->]. eauto.
    + apply IH. intros key' Hin. apply Hearlier. now right.
Qed.

End ResolverFacts.

(** C1, as the code has it.  When the library filters the descriptor of a
    package whose [browser] mapping holds [false] under one of the keys
    looked up for the requested sub-path, and none of the keys looked up
    before it holds a string, [resolvePackageFrom] resolves to
    [<hqroot>/hq-empty-module.js] whatever the library goes on to probe or
    report. *)
Theorem resolvePackageFrom_disabled
        (extname : string -> string) (path_resolve : string -> string -> string)
        (isCore : string -> bool) (resolvePackage : string -> string -> list string -> run)
        (basedir dpath hqroot : string) (pkg : packageJSON) (k : packageJSON -> run)
        (st : resolution) (earlier : list string) (key : string) (later : list string) :
  modPath_of dpath <> "" ->
  is_mapping (browser pkg) = true ->
  browser_keys extname (modPath_of dpath) = (earlier ++ key :: later)%list ->
  get (browser pkg) key = Bool false ->
  (forall key', In key' earlier -> is_string (get (browser pkg) key') = false) ->
  reaches extname (modPath_of dpath) (emptyPath_of path_resolve hqroot)
          (resolvePackage (modResolve_of isCore dpath) basedir resolve_extensions) initial
          (CallPackageFilter pkg k) st ->
  resolvePackageFrom extname path_resolve isCore resolvePackage basedir dpath hqroot =
  Finished (Fulfilled (Str (path_resolve hqroot "hq-empty-module.js"))).
Proof.
  intros Hne Hmap Hkeys Hkey Hearlier Hreach. unfold resolvePackageFrom.
  destruct (first_match_boolean (browser pkg) earlier key later) as (key0 & b0 & Hfirst);
    [now rewrite Hkey | exact Hearlier |].
  rewrite <- Hkeys in Hfirst.
  eapply drive_first_match_boolean; eauto using open_or_disabled_initial.
Qed.

Lemma resolvePackageFrom_disabled_witness :
  resolvePackageFrom posix_extname posix_resolve no_core
    (single_package_run disabled_by_false "/app/node_modules/pkg" "lib/foo.js")
    "/app" "/node_modules/pkg/lib/foo.js" "/hq" =
  Finished (Fulfilled (Str "/hq/hq-empty-module.js")).
Proof.
  apply (resolvePackageFrom_disabled posix_extname posix_resolve no_core
           (single_package_run disabled_by_false "/app/node_modules/pkg" "lib/foo.js")
           "/app" "/node_modules/pkg/lib/foo.js" "/hq" disabled_by_false
           (after_filter "/app/node_modules/pkg" "lib/foo.js") initial
           ["lib/foo.js"] "./lib/foo.js" ["./lib/foo.js.js"; "./lib/foo.js"]).
  - discriminate.
  - reflexivity.
  - reflexivity.
  - reflexivity.
  - intros key' [<- | []]. reflexivity.
  - apply reaches_here.
Defined.

(** C1 as stated fails: the [./]-prefixed key holds [false], but the exact
    key, looked up first, holds a string, and the call resolves to the file
    located for that string. *)
Lemma resolvePackageFrom_disabled_counterexample :
  In "./lib/foo.js" (browser_keys posix_extname (modPath_of "/node_modules/pkg/lib/foo.js")) /\
  get (browser replaced_then_disabled) "./lib/foo.js" = Bool false /\
  resolvePackageFrom posix_extname posix_resolve no_core
    (single_package_run replaced_then_disabled "/app/node_modules/pkg" "lib/foo.js")
    "/app" "/node_modules/pkg/lib/foo.js" "/hq" <>
  Finished (Fulfilled (Str "/hq/hq-empty-module.js")).
Proof.
  split; [right; left; reflexivity|]. split; [reflexivity|].
  vm_compute. discriminate.
Qed.




Section FilterFacts.

Variable extname : string -> string.

(** With a [browser] mapping the descriptor filter looks up the keys of
    the path chosen by [lookup_path]. *)
Lemma packageFilter_lookup modPath emptyPath pkg st :
  is_mapping (browser pkg) = true ->
  packageFilter extname modPath emptyPath pkg st =
  match lookup_path modPath pkg with
  | Some pkgPath =>
      resolveOrModify extname pkgPath
        (if truthy (module pkg) then set_main pkg (module pkg) else pkg) emptyPath st
  | None => Return (if truthy (module pkg) then set_main pkg (module pkg) else pkg, st)
  end.
Proof.
  intros Hmap. unfold packageFilter, lookup_path.
  assert (Hb : browser (if truthy (module pkg) then set_main pkg (module pkg) else pkg)
               = browser pkg) by now destruct (truthy (module pkg)).
  assert (Hm : module (if truthy (module pkg) then set_main pkg (module pkg) else pkg)
               = module pkg) by now destruct (truthy (module pkg)).
  rewrite Hb, Hm, (is_mapping_not_string _ Hmap).
  unfold is_mapping in Hmap. rewrite Hmap.
  destruct (truthy (Str modPath)); [reflexivity|].
  destruct (truthy (main pkg)); [reflexivity|].
  destruct (truthy (module pkg)); reflexivity.
Qed.

(** Whatever the request, a descriptor filter that returns leaves the
    shared state alone, flags it modified, or disables. *)
Lemma packageFilter_steps modPath emptyPath pkg st pkg' st' :
  packageFilter extname modPath emptyPath pkg st = Return (pkg', st') ->
  st' = st \/ st' = mark_modified st \/ st' = disable emptyPath st.
Proof.
  assert (Hrom : forall pkgPath p,
             resolveOrModify extname pkgPath p emptyPath st = Return (pkg', st') ->
             st' = st \/ st' = mark_modified st \/ st' = disable emptyPath st).
  { intros pkgPath p. destruct pkgPath as [| |b|z|path|props]; try discriminate.
    rewrite resolveOrModify_first_match.
    destruct (first_match _ _) as [[key [| |b|z|r|props]]|];
      intros H; injection H as _ <-; auto. }
  unfold packageFilter.
  set (pkg1 := if truthy (module pkg) then set_main pkg (module pkg) else pkg).
  destruct (is_string (browser pkg1)); [intros H; injection H as _ <-; auto|].
  destruct (String.eqb (typeof (browser pkg1)) "object" && truthy (browser pkg1));
    [|intros H; injection H as _ <-; auto].
  destruct (truthy (Str modPath)); [apply Hrom|].
  destruct (truthy (main pkg)); [apply Hrom|].
  destruct (truthy (module pkg1)); [apply Hrom|].
  intros H; injection H as _ <-; auto.
Qed.

Lemma reaches_open_or_disabled_any modPath emptyPath r st r' st' :
  reaches extname modPath emptyPath r st r' st' ->
  open_or_disabled emptyPath st -> open_or_disabled emptyPath st'.
Proof.
  induction 1 as [| pkg k st pkg' st' r'' st'' Hf _ IH | ]; auto.
  intros Hst. apply IH. eapply open_or_disabled_step; [exact Hst|].
  eapply packageFilter_steps; exact Hf.
Qed.

(** Once disabled, the promise holds the empty-module path however the
    call ends. *)
Lemma promise_disabled modPath emptyPath r : forall st,
  resolved st = true -> outcome st = Fulfilled (Str emptyPath) ->
  promise_of (drive extname modPath emptyPath r st) = Fulfilled (Str emptyPath).
Proof.
  induction r as [pkg k IH | pkg full rel k IH | err p]; intros st Hres Hout; simpl.
  - destruct (packageFilter extname modPath emptyPath pkg st) as [[pkg' st']|e] eqn:Hf;
      [|exact Hout].
    apply IH; destruct (packageFilter_steps _ _ _ _ _ _ Hf) as [-> | [-> | ->]];
      simpl; auto. now rewrite Hout.
  - now apply IH.
  - unfold callback. now rewrite Hres.
Qed.

End FilterFacts.

(** C9.  In the descriptor filter the disabling branch is taken for a
    matched key holding any boolean, [true] as well as [false], whichever
    path the filter looks up: the requested sub-path, else the descriptor's
    [main], else its [module].  The filter marks the request resolved and
    resolves the promise to the empty-module path, which is what the call
    yields.  So the mapping [{"./lib/foo.js": true}] resolves the sub-path
    [lib/foo.js] to the empty module. *)
Theorem packageFilter_any_boolean_disables
        (extname : string -> string) (path_resolve : string -> string -> string)
        (isCore : string -> bool) (resolvePackage : string -> string -> list string -> run)
        (basedir dpath hqroot : string) (pkg : packageJSON) (k : packageJSON -> run)
        (st : resolution) (pkgPath key : string) (b : bool) :
  is_mapping (browser pkg) = true ->
  lookup_path (modPath_of dpath) pkg = Some (Str pkgPath) ->
  first_match (browser pkg) (browser_keys extname pkgPath) = Some (key, Bool b) ->
  reaches extname (modPath_of dpath) (emptyPath_of path_resolve hqroot)
          (resolvePackage (modResolve_of isCore dpath) basedir resolve_extensions) initial
          (CallPackageFilter pkg k) st ->
  (exists pkg',
      packageFilter extname (modPath_of dpath) (emptyPath_of path_resolve hqroot) pkg st
      = Return (pkg', disable (emptyPath_of path_resolve hqroot) st)) /\
  promise_of (resolvePackageFrom extname path_resolve isCore resolvePackage basedir dpath hqroot)
  = Fulfilled (Str (emptyPath_of path_resolve hqroot)) /\
  (modPath_of dpath <> "" ->
   resolvePackageFrom extname path_resolve isCore resolvePackage basedir dpath hqroot =
   Finished (Fulfilled (Str (emptyPath_of path_resolve hqroot)))).
Proof.
  intros Hmap Hpath Hfirst Hreach.
  assert (Hb : browser (if truthy (module pkg) then set_main pkg (module pkg) else pkg)
               = browser pkg) by now destruct (truthy (module pkg)).
  assert (Hf : packageFilter extname (modPath_of dpath) (emptyPath_of path_resolve hqroot)
                 pkg st
               = Return (if truthy (module pkg) then set_main pkg (module pkg) else pkg,
                         disable (emptyPath_of path_resolve hqroot) st)).
  { rewrite (packageFilter_lookup _ _ _ _ _ Hmap), Hpath, resolveOrModify_first_match.
    now rewrite Hb, Hfirst. }
  pose proof (reaches_open_or_disabled_any _ _ _ _ _ _ _ Hreach
                (open_or_disabled_initial _)) as Hst.
  destruct (disable_settles _ _ Hst) as [Hres Hout].
  split; [eauto|]. split.
  - unfold resolvePackageFrom. rewrite (reaches_drive _ _ _ _ _ _ _ Hreach). simpl.
    rewrite Hf. now apply promise_disabled.
  - intros Hne. unfold resolvePackageFrom. rewrite (reaches_drive _ _ _ _ _ _ _ Hreach).
    simpl. rewrite Hf. now apply drive_disabled.
Qed.

Lemma packageFilter_any_boolean_disables_witness :
  get (browser enabled_by_true) "./lib/foo.js" = Bool true /\
  resolvePackageFrom posix_extname posix_resolve no_core
    (single_package_run enabled_by_true "/app/node_modules/pkg" "lib/foo.js")
    "/app" "/node_modules/pkg/lib/foo.js" "/hq" =
  Finished (Fulfilled (Str "/hq/hq-empty-module.js")) /\
  promise_of (resolvePackageFrom posix_extname posix_resolve no_core
                (single_package_run main_enabled_by_true "/app/node_modules/pkg" "index.js")
                "/app" "/node_modules/pkg" "/hq") =
  Fulfilled (Str "/hq/hq-empty-module.js") /\
  promise_of (resolvePackageFrom posix_extname posix_resolve no_core
                (single_package_run module_enabled_by_true "/app/node_modules/pkg"
                   "esm/index.js")
                "/app" "/node_modules/pkg" "/hq") =
  Fulfilled (Str "/hq/hq-empty-module.js").
Proof.
  split; [reflexivity|]. split; [|split].
  - apply (proj2 (proj2 (packageFilter_any_boolean_disables posix_extname posix_resolve
             no_core
             (single_package_run enabled_by_true "/app/node_modules/pkg" "lib/foo.js")
             "/app" "/node_modules/pkg/lib/foo.js" "/hq" enabled_by_true
             (after_filter "/app/node_modules/pkg" "lib/foo.js") initial
             "lib/foo.js" "./lib/foo.js" true
             eq_refl eq_refl eq_refl (reaches_here _ _ _ _ _)))).
    discriminate.
  - apply (proj1 (proj2 (packageFilter_any_boolean_disables posix_extname posix_resolve
             no_core
             (single_package_run main_enabled_by_true "/app/node_modules/pkg" "index.js")
             "/app" "/node_modules/pkg" "/hq" main_enabled_by_true
             (after_filter "/app/node_modules/pkg" "index.js") initial
             "index.js" "./index.js" true
             eq_refl eq_refl eq_refl (reaches_here _ _ _ _ _)))).
  - apply (proj1 (proj2 (packageFilter_any_boolean_disables posix_extname posix_resolve
             no_core
             (single_package_run module_enabled_by_true "/app/node_modules/pkg"
                "esm/index.js")
             "/app" "/node_modules/pkg" "/hq" module_enabled_by_true
             (after_filter "/app/node_modules/pkg" "esm/index.js") initial
             "esm/index.js" "./esm/index.js" true
             eq_refl eq_refl eq_refl (reaches_here _ _ _ _ _)))).
Defined.

(** ** Listener bootstrap *)

Section BootstrapFacts.

Variable listen : Z -> option string.
Variables (certificates : list string) (root s : string).

Lemma getFreeServer_bound port retry :
  listen port = None ->
  exists l, getFreeServer listen certificates root s port retry = Return l /\ server_port l = port.
Proof.
  intros H. rewrite (getFreeServer_equation_1 _ _ _ _ port retry), H. simpl. eauto.
Qed.

Ltac decide_retry :=
  match goal with
  | |- context [(?a >? ?b)%Z] =>
      let E := fresh "E" in
      destruct (a >? b)%Z eqn:E;
      [apply Z.gtb_lt in E | rewrite Z.gtb_ltb in E; apply Z.ltb_ge in E];
      unfold MAX_RETRY in *; try lia
  end.

(** What a failed bind leads to. *)
Lemma getFreeServer_failed port retry err :
  listen port = Some err ->
  getFreeServer listen certificates root s port retry =
  if (retry >? MAX_RETRY)%Z then Throw err
  else getFreeServer listen certificates root s (port + 1) (retry + 1).
Proof.
  intros H. rewrite (getFreeServer_equation_1 _ _ _ _ port retry), H. simpl.
  destruct (Z_gt_dec retry MAX_RETRY) as [Hgt | Hle]; simpl.
  - decide_retry. reflexivity.
  - decide_retry. reflexivity.
Qed.

(** One step of the retry: when binding [port] fails, [getFreeServer] goes
    on with [port + 1] and the counter raised by one as long as the counter
    has not exceeded [MAX_RETRY], and otherwise throws the error. *)
Lemma getFreeServer_retry_ceiling (port retry : Z) (err : string) :
  listen port = Some err ->
  MAX_RETRY = 30%Z /\
  ((retry <= 30)%Z ->
   getFreeServer listen certificates root s port retry =
   getFreeServer listen certificates root s (port + 1) (retry + 1)) /\
  ((30 < retry)%Z -> getFreeServer listen certificates root s port retry = Throw err).
Proof.
  intros H. split; [reflexivity|].
  rewrite (getFreeServer_failed port retry err H). unfold MAX_RETRY. split; intros Hr.
  - decide_retry. reflexivity.
  - decide_retry. reflexivity.
Qed.

(** Started with the counter at 0, the bootstrap fails when the 32 ports
    from [port] on all fail to bind, with the error of the last. *)
Lemma getFreeServer_all_fail port retry err :
  (0 <= retry <= 31)%Z ->
  (forall i, (0 <= i < 31 - retry)%Z -> listen (port + i)%Z <> None) ->
  listen (port + (31 - retry))%Z = Some err ->
  getFreeServer listen certificates root s port retry = Throw err.
Proof.
  intros Hr. remember (Z.to_nat (31 - retry)) as n eqn:Hn.
  revert port retry Hr Hn. induction n as [|n IH]; intros port retry Hr Hn Hfail Hlast.
  - assert (retry = 31%Z) by lia. subst retry.
    replace (port + (31 - 31))%Z with port in Hlast by lia.
    rewrite (getFreeServer_failed port 31 err Hlast). reflexivity.
  - destruct (listen port) as [e|] eqn:He.
    + rewrite (getFreeServer_failed port retry e He).
      decide_retry.
      apply IH; try lia.
      * intros i Hi. replace (port + 1 + i)%Z with (port + (1 + i))%Z by lia.
        apply Hfail. lia.
      * replace (port + 1 + (31 - (retry + 1)))%Z with (port + (31 - retry))%Z by lia.
        exact Hlast.
    + exfalso. apply (Hfail 0%Z); [lia|]. now replace (port + 0)%Z with port by lia.
Qed.

(** And it binds the first free port among them. *)
Lemma getFreeServer_first_free port retry (n : nat) :
  (0 <= retry)%Z -> (retry + Z.of_nat n <= 31)%Z ->
  (forall i, (0 <= i < Z.of_nat n)%Z -> listen (port + i)%Z <> None) ->
  listen (port + Z.of_nat n)%Z = None ->
  exists l, getFreeServer listen certificates root s port retry = Return l /\
            server_port l = (port + Z.of_nat n)%Z.
Proof.
  revert port retry. induction n as [|n IH]; intros port retry Hr Hn Hfail Hfree.
  - replace (port + Z.of_nat 0)%Z with port in * by lia.
    now apply getFreeServer_bound.
  - destruct (listen port) as [e|] eqn:He.
    + rewrite (getFreeServer_failed port retry e He).
      decide_retry.
      replace (port + Z.of_nat (S n))%Z with (port + 1 + Z.of_nat n)%Z in * by lia.
      apply IH; try lia; [|exact Hfree].
      intros i Hi. replace (port + 1 + i)%Z with (port + (1 + i))%Z by lia.
      apply Hfail. lia.
    + exfalso. apply (Hfail 0%Z); [lia|]. now replace (port + 0)%Z with port by lia.
Qed.

End BootstrapFacts.

Lemma getFreeServer_retry_ceiling_witness :
  let occupied := fun port : Z => if (port <? 8081)%Z then Some "EADDRINUSE" else None in
  getFreeServer occupied [] "/app" "" 8080 0 = getFreeServer occupied [] "/app" "" 8081 1 /\
  getFreeServer (fun _ => Some "EADDRINUSE") [] "/app" "" 8111 31 = Throw "EADDRINUSE".
Proof.
  intros occupied. split.
  - apply (proj1 (proj2 (getFreeServer_retry_ceiling occupied [] "/app" ""
                            8080 0 "EADDRINUSE" eq_refl))).
    lia.
  - apply (proj2 (proj2 (getFreeServer_retry_ceiling (fun _ => Some "EADDRINUSE") [] "/app" ""
                            8111 31 "EADDRINUSE" eq_refl))).
    lia.
Defined.

(** C6, as the code has it.  [getServer] starts the retry counter at 0
    and [getFreeServer] retries on the next port while the counter has not
    exceeded [MAX_RETRY], which is 30.  So each failed bind is followed by
    a bind on the next port after up to 31 failures: whenever the first
    [k] ports fail, [k] at most 31, and the next one binds, the bootstrap
    resolves on [port + k].  Once the 32nd bind in a row, on [port + 31],
    has failed too, the bootstrap fails with that bind error. *)
Theorem getServer_retry_ceiling (listen : Z -> option string) (certificates : list string)
        (read_all : list string -> option string) (root : string) (port : Z) :
  read_all (firstn 2 certificates) = None ->
  MAX_RETRY = 30%Z /\
  (forall k : Z,
      (0 <= k <= 31)%Z ->
      (forall i, (0 <= i < k)%Z -> listen (port + i)%Z <> None) ->
      listen (port + k)%Z = None ->
      exists l, getServer listen (Return certificates) read_all root port = Return l /\
                server_port l = (port + k)%Z) /\
  (forall err : string,
      (forall i, (0 <= i < 31)%Z -> listen (port + i)%Z <> None) ->
      listen (port + 31)%Z = Some err ->
      getServer listen (Return certificates) read_all root port = Throw err).
Proof.
  intros Hread. split; [reflexivity|]. unfold getServer. rewrite Hread. split.
  - intros k Hk Hbusy Hfree.
    replace k with (Z.of_nat (Z.to_nat k)) in * by lia.
    apply getFreeServer_first_free; try lia; assumption.
  - intros err Hbusy Hlast. apply getFreeServer_all_fail; [lia | | exact Hlast].
    intros i Hi. apply Hbusy. lia.
Qed.

Lemma getServer_retry_ceiling_witness :
  let occupied := fun q : Z => if (q <? 3031)%Z then Some "EADDRINUSE" else None in
  (exists l, getServer occupied (Return []) (fun _ => None) "/app" 3000 = Return l /\
             server_port l = 3031%Z) /\
  getServer (fun _ => Some "EADDRINUSE") (Return []) (fun _ => None) "/app" 3000
  = Throw "EADDRINUSE".
Proof.
  intros occupied. split.
  - replace 3031%Z with (3000 + 31)%Z by reflexivity.
    apply (proj1 (proj2 (getServer_retry_ceiling occupied [] (fun _ => None) "/app" 3000
                           eq_refl)) 31%Z); [lia | | reflexivity].
    intros i Hi. unfold occupied.
    destruct (3000 + i <? 3031)%Z eqn:E; [discriminate | apply Z.ltb_ge in E; lia].
  - apply (proj2 (proj2 (getServer_retry_ceiling (fun _ => Some "EADDRINUSE") []
                           (fun _ => None) "/app" 3000 eq_refl)) "EADDRINUSE");
      [discriminate | reflexivity].
Defined.

(** C6 as stated fails: with 31 ports in a row occupied the 31st failed
    attempt has exceeded 30, yet the bootstrap retries once more and binds
    [port + 31], where the rule counted on attempts gives up. *)
Lemma getServer_attempts_counterexample :
  let occupied := fun q : Z => if (q <? 3031)%Z then Some "EADDRINUSE" else None in
  bind_by_attempts occupied 64 3000 1 = Throw "EADDRINUSE" /\
  getServer occupied (Return []) (fun _ => None) "/app" 3000
  = Return {| certs := []; server_port := 3031; protocol := "http" |}.
Proof. intros occupied. split; vm_compute; reflexivity. Qed.

(* ===================================================================== *)
(** * Further properties of the helpers *)
(* ===================================================================== *)

(** ** Strings *)

Lemma prefix_app (p s : string) : String.prefix p (p ++ s) = true.
Proof.
  induction p as [|c p IH]; simpl; [now destruct s|].
  destruct (ascii_dec c c); [exact IH | contradiction].
Qed.

Lemma prefix_split (p s : string) :
  String.prefix p s = true -> s = p ++ drop (String.length p) s.
Proof.
  revert s; induction p as [|c p IH]; intros s H; simpl; [reflexivity|].
  destruct s as [|c' s]; [discriminate|]. simpl in H.
  destruct (ascii_dec c c'); [|discriminate]. subst c'. f_equal. now apply IH.
Qed.

Lemma prefix_app_l (a b s : string) :
  String.prefix (a ++ b) s = true -> String.prefix a s = true.
Proof.
  revert s; induction a as [|c a IH]; intros s H; simpl in *; [now destruct s|].
  destruct s as [|c' s]; [discriminate|]. simpl in *.
  destruct (ascii_dec c c'); [now apply IH | discriminate].
Qed.

Lemma drop_app_length (a b : string) : drop (String.length a) (a ++ b) = b.
Proof. induction a as [|c a IH]; simpl; [now destruct b | exact IH]. Qed.

Lemma length_append (a b : string) :
  String.length (a ++ b) = String.length a + String.length b.
Proof. induction a as [|c a IH]; simpl; [reflexivity | now rewrite IH]. Qed.

Lemma contains_prefix (s needle : string) :
  String.prefix needle s = true -> contains s needle = true.
Proof. intros H. destruct s; cbn [contains]; now rewrite H. Qed.

Lemma contains_app (a needle b : string) : contains (a ++ needle ++ b) needle = true.
Proof.
  induction a as [|c a IH].
  - change ("" ++ needle ++ b) with (needle ++ b). apply contains_prefix, prefix_app.
  - change (contains (String c (a ++ needle ++ b)) needle = true).
    cbn [contains]. rewrite IH. apply orb_true_r.
Qed.

(** ** Path classifier *)

Lemma matchesModule_iff (filePath name : string) :
  matchesModule filePath name = true <->
  filePath = "/node_modules/" ++ name \/
  exists rest, filePath = "/node_modules/" ++ name ++ "/" ++ rest.
Proof.
  unfold matchesModule, startsWith. rewrite orb_true_iff, String.eqb_eq. split.
  - intros [H | H]; [now left | right].
    apply prefix_split in H. eexists. rewrite H at 1.
    change ("/node_modules/" ++ name ++ "/") with ("/node_modules/" ++ (name ++ "/")).
    rewrite <- (append_assoc name "/"). reflexivity.
  - intros [H | [rest H]]; [now left | right]. subst filePath.
    change ("/node_modules/" ++ name ++ "/" ++ rest)
      with ("/node_modules/" ++ (name ++ "/" ++ rest)).
    rewrite <- (append_assoc name "/" rest).
    change ("/node_modules/" ++ (name ++ "/") ++ rest)
      with (("/node_modules/" ++ name ++ "/") ++ rest).
    apply prefix_app.
Qed.

Lemma prefix_app_cancel (a x y : string) :
  String.prefix (a ++ x) (a ++ y) = String.prefix x y.
Proof.
  induction a as [|c a IH]; [reflexivity|].
  change (String.prefix (String c (a ++ x)) (String c (a ++ y)) = String.prefix x y).
  cbn [String.prefix]. destruct (ascii_dec c c) as [_ | Hc]; [exact IH | congruence].
Qed.

Lemma append_cancel_empty (a x : string) : a ++ x = a -> x = "".
Proof.
  induction a as [|c a IH]; [intros H; exact H|].
  intros H. apply IH. change (String c (a ++ x) = String c a) in H. congruence.
Qed.

(** X1.  A sibling of a module, a package whose name goes on after the
    module's name with anything but a separator, does not match the
    module, nor does anything below the sibling. *)
Theorem matchesModule_sibling (name suffix : string) :
  suffix <> "" -> String.prefix "/" suffix = false ->
  matchesModule ("/node_modules/" ++ name ++ suffix) name = false.
Proof.
  intros Hne Hsep. unfold matchesModule, startsWith. apply orb_false_iff. split.
  - apply String.eqb_neq. intros H.
    change ("/node_modules/" ++ name ++ suffix)
      with ("/node_modules/" ++ (name ++ suffix)) in H.
    rewrite <- (append_assoc "/node_modules/" name suffix) in H.
    apply append_cancel_empty in H. exact (Hne H).
  - change ("/node_modules/" ++ name ++ "/") with ("/node_modules/" ++ (name ++ "/")).
    change ("/node_modules/" ++ name ++ suffix) with ("/node_modules/" ++ (name ++ suffix)).
    rewrite !prefix_app_cancel. exact Hsep.
Qed.

Lemma matchesModule_sibling_witness :
  matchesModule "/node_modules/core-js-pure/es/index.js" "core-js" = false.
Proof.
  apply (matchesModule_sibling "core-js" "-pure/es/index.js"); [discriminate | reflexivity].
Defined.

Lemma matchesModule_vendor (filePath name : string) :
  matchesModule filePath name = true -> isVendor filePath = true.
Proof.
  unfold matchesModule, isVendor, startsWith. rewrite orb_true_iff, String.eqb_eq.
  intros [-> | H]; [apply prefix_app|].
  change ("/node_modules/" ++ name ++ "/") with ("/node_modules/" ++ (name ++ "/")) in H.
  exact (prefix_app_l _ _ _ H).
Qed.

(** X2.  Every polyfill path is a vendor path. *)
Theorem isPolyfill_isVendor (filePath : string) :
  isPolyfill filePath = true -> isVendor filePath = true.
Proof.
  unfold isPolyfill. rewrite !orb_true_iff.
  intros H. repeat destruct H as [H | H]; eapply matchesModule_vendor; exact H.
Qed.

Lemma isPolyfill_isVendor_witness :
  isPolyfill "/node_modules/core-js/modules/es.array.flat.js" = true /\
  isVendor "/node_modules/core-js/modules/es.array.flat.js" = true.
Proof.
  split; [reflexivity|].
  apply (isPolyfill_isVendor "/node_modules/core-js/modules/es.array.flat.js").
  reflexivity.
Defined.

(** X3.  The compiled type of a source extension is again a source extension,
    one of the five output types. *)
Theorem getResType_source_closed (ext : string) :
  isSource ext = true ->
  isSource (getResType ext) = true /\
  In (getResType ext) [".html"; ".css"; ".js"; ".mjs"; ".map"].
Proof.
  unfold isSource at 1. unfold includes, source_extensions. simpl existsb.
  rewrite !orb_true_iff, !String.eqb_eq.
  intros H. repeat (destruct H as [H | H]; [subst ext; split; [reflexivity | simpl; tauto]|]).
  discriminate.
Qed.

Lemma getResType_source_closed_witness :
  isSource ".coffee" = true /\ isSource (getResType ".coffee") = true /\
  In (getResType ".coffee") [".html"; ".css"; ".js"; ".mjs"; ".map"].
Proof.
  split; [reflexivity|]. apply (getResType_source_closed ".coffee"). reflexivity.
Defined.

Ltac case_string_eq x lit :=
  destruct (String.eqb_spec x lit) as [->|?]; [reflexivity|].

(** X4.  A file is linked the same way under its own extension and under the
    extension of its compiled output. *)
Theorem getLinkType_getResType (ext name : string) :
  getLinkType (getResType ext) name = getLinkType ext name.
Proof.
  case_string_eq ext ".jsx". case_string_eq ext ".ts". case_string_eq ext ".tsx".
  case_string_eq ext ".es6". case_string_eq ext ".vue". case_string_eq ext ".svelte".
  case_string_eq ext ".coffee". case_string_eq ext ".scss". case_string_eq ext ".sass".
  case_string_eq ext ".less". case_string_eq ext ".pug".
  unfold getResType, includes. simpl existsb.
  repeat match goal with
         | H : ext <> ?lit |- _ => apply String.eqb_neq in H; rewrite H; clear H
         end.
  reflexivity.
Qed.

(** X5.  The link type is [worker] exactly for a script-family extension and a
    name the worker expression matches. *)
Theorem getLinkType_worker_iff (ext name : string) :
  getLinkType ext name = "worker" <->
  In ext [".js"; ".jsx"; ".es6"; ".vue"; ".svelte"; ".ts"; ".tsx"; ".coffee"; ".mjs"] /\
  isWorker name = true.
Proof.
  unfold getLinkType, isWorker.
  destruct (includes [".js"; ".jsx"; ".es6"; ".vue"; ".svelte"; ".ts"; ".tsx";
                      ".coffee"; ".mjs"] ext) eqn:Hs.
  - assert (Hin : In ext [".js"; ".jsx"; ".es6"; ".vue"; ".svelte"; ".ts"; ".tsx";
                          ".coffee"; ".mjs"]).
    { unfold includes in Hs. apply existsb_exists in Hs as (x & Hx & Heq).
      apply String.eqb_eq in Heq. now subst x. }
    destruct (Regex.test WORKER_REXP name); split; auto; try discriminate.
    intros [_ H]. discriminate.
  - split.
    + repeat match goal with
             | |- context [if ?c then _ else _] => destruct c
             end; discriminate.
    + intros [Hin _]. exfalso.
      assert (includes [".js"; ".jsx"; ".es6"; ".vue"; ".svelte"; ".ts"; ".tsx";
                        ".coffee"; ".mjs"] ext = true); [|congruence].
      unfold includes. apply existsb_exists. exists ext. split; [exact Hin|].
      apply String.eqb_refl.
Qed.

(** ** Extension prober *)

(** X7.  The extension returned names a file that exists. *)
Theorem findExistingExtension_sound (pathExists : string -> bool) (filepath ext : string) :
  findExistingExtension pathExists filepath = Return ext ->
  pathExists (filepath ++ ext) = true.
Proof.
  unfold findExistingExtension.
  destruct (endsWith filepath "index"); cbn [andb negb];
    repeat match goal with
           | |- context [if pathExists ?p then _ else _] =>
               let E := fresh "E" in destruct (pathExists p) eqn:E
           end;
    intros H; try discriminate; injection H as <-;
    rewrite ?append_empty_r; assumption.
Qed.

Lemma findExistingExtension_sound_witness :
  let disk := fun p => String.eqb p "/src/app.ts" || String.eqb p "/src/app.js" in
  findExistingExtension disk "/src/app" = Return ".ts" /\ disk ("/src/app" ++ ".ts") = true.
Proof.
  intros disk. split; [reflexivity|].
  apply (findExistingExtension_sound disk "/src/app" ".ts"). reflexivity.
Defined.

(** X8.  The prober throws exactly when none of the twelve candidates exists,
    and then with the message naming the probed path. *)
Theorem findExistingExtension_throws_iff (pathExists : string -> bool) (filepath : string) :
  findExistingExtension pathExists filepath = Throw ("File " ++ filepath ++ " not found") <->
  forall ext, In ext (probe_order true) -> pathExists (filepath ++ ext) = false.
Proof.
  split.
  - unfold findExistingExtension.
    destruct (endsWith filepath "index"); cbn [andb negb];
      repeat match goal with
             | |- context [if pathExists ?p then _ else _] =>
                 let E := fresh "E" in destruct (pathExists p) eqn:E
             end;
      intros H; try discriminate; intros ext Hin; simpl in Hin;
      repeat (destruct Hin as [<- | Hin]; [rewrite ?append_empty_r; assumption|]);
      contradiction.
  - intros H. unfold findExistingExtension.
    rewrite !H by (simpl; tauto).
    pose proof (H "" ltac:(simpl; tauto)) as Hbare. rewrite append_empty_r in Hbare.
    rewrite Hbare, !andb_false_r. reflexivity.
Qed.

(** ** Version helper *)

Section VersionFacts.
Import Regex.

Lemma digit_runs_skip (pre s : string) :
  all_chars (fun c => negb (is_digit c)) pre = true ->
  digit_runs_from None (pre ++ s) = digit_runs_from None s.
Proof.
  induction pre as [|c pre IH]; simpl; [reflexivity|].
  intros H. apply andb_true_iff in H as [Hc Hpre].
  apply negb_true_iff in Hc. rewrite Hc. auto.
Qed.

Lemma digit_runs_read (run ds s : string) :
  all_chars is_digit ds = true ->
  digit_runs_from (Some run) (ds ++ s) = digit_runs_from (Some (run ++ ds)) s.
Proof.
  revert run; induction ds as [|c ds IH]; intros run H; simpl.
  - now rewrite append_empty_r.
  - simpl in H. apply andb_true_iff in H as [Hc Hds]. rewrite Hc, IH by exact Hds.
    now rewrite append_assoc.
Qed.

(** A run of digits followed by the end or by a character that is not a
    digit is the next match. *)
Lemma digit_runs_number (ds s : string) :
  ds <> "" -> all_chars is_digit ds = true ->
  match s with String c _ => is_digit c = false | EmptyString => True end ->
  digit_runs_from None (ds ++ s) = ds :: digit_runs_from None s.
Proof.
  intros Hne Hds Hs. destruct ds as [|d ds]; [contradiction|].
  simpl in Hds. apply andb_true_iff in Hds as [Hd Hds].
  change (String d ds ++ s) with (String d (ds ++ s)). cbn [digit_runs_from].
  rewrite Hd, digit_runs_read by exact Hds.
  destruct s as [|c s]; simpl; [reflexivity|]. now rewrite Hs.
Qed.

Lemma digits_value_uint (d : Decimal.uint) (acc : nat) :
  digits_value (Z.of_nat acc) (NilEmpty.string_of_uint d) = Z.of_nat (Nat.of_uint_acc d acc).
Proof.
  revert acc; induction d; intros acc;
    cbn [NilEmpty.string_of_uint Nat.of_uint_acc digits_value]; [reflexivity|..];
    rewrite <- IHd; f_equal; rewrite Nat.tail_mul_spec;
    match goal with
    | |- context [nat_of_ascii ?c] =>
        let v := eval vm_compute in (nat_of_ascii c) in change (nat_of_ascii c) with v
    end; lia.
Qed.

Lemma digits_value_decimal (n : nat) : digits_value 0 (decimal n) = Z.of_nat n.
Proof.
  unfold decimal. change 0%Z with (Z.of_nat 0).
  rewrite (digits_value_uint (Nat.to_uint n) 0).
  change (Nat.of_uint_acc (Nat.to_uint n) 0) with (Nat.of_uint (Nat.to_uint n)).
  now rewrite DecimalNat.Unsigned.of_to.
Qed.

Lemma all_digits_uint (d : Decimal.uint) :
  all_chars is_digit (NilEmpty.string_of_uint d) = true.
Proof. induction d; simpl; auto. Qed.

Lemma decimal_digits (n : nat) : all_chars is_digit (decimal n) = true.
Proof. apply all_digits_uint. Qed.

Lemma decimal_nonempty (n : nat) : decimal n <> "".
Proof.
  unfold decimal. intros H.
  assert (Hnil : Nat.to_uint n = Decimal.Nil).
  { destruct (Nat.to_uint n); [reflexivity | discriminate..]. }
  pose proof (DecimalNat.Unsigned.of_to n) as Hn. rewrite Hnil in Hn.
  change (Nat.of_uint Decimal.Nil) with 0 in Hn. subst n. discriminate.
Qed.

(** X9.  A semantic version written in decimal, after any range prefix without
    digits ([^], [~], [>=]) and before any suffix that does not begin with
    a digit, is read back as its three numbers (numbers below 2^53, which
    [Number] converts exactly). *)
Theorem getVersion_semver_roundtrip (name pre rest : string) (ma mi pa : nat) :
  (Z.of_nat ma < 2 ^ 53)%Z -> (Z.of_nat mi < 2 ^ 53)%Z -> (Z.of_nat pa < 2 ^ 53)%Z ->
  all_chars (fun c => negb (is_digit c)) pre = true ->
  match rest with String c _ => is_digit c = false | EmptyString => True end ->
  getVersion
    (Obj [(name, Str (pre ++ decimal ma ++ "." ++ decimal mi ++ "." ++ decimal pa ++ rest))])
    name
  = Return (Some {| major := Some (Z.of_nat ma); minor := Some (Z.of_nat mi);
                    patch := Some (Z.of_nat pa) |}).
Proof.
  intros _ _ _ Hpre Hrest. unfold getVersion. cbn [truthy negb lookup has_own assoc].
  rewrite String.eqb_refl. cbn [orb].
  assert (Hruns : digit_runs_from None
                    (pre ++ decimal ma ++ "." ++ decimal mi ++ "." ++ decimal pa ++ rest)
                  = decimal ma :: decimal mi :: decimal pa :: digit_runs_from None rest).
  { rewrite digit_runs_skip by exact Hpre.
    rewrite digit_runs_number;
      [ | apply decimal_nonempty | apply decimal_digits | first [reflexivity | exact Hrest] ].
    cbn [append digit_runs_from]. change (is_digit ".") with false. cbv iota.
    rewrite digit_runs_number;
      [ | apply decimal_nonempty | apply decimal_digits | first [reflexivity | exact Hrest] ].
    cbn [append digit_runs_from]. change (is_digit ".") with false. cbv iota.
    rewrite digit_runs_number;
      [ | apply decimal_nonempty | apply decimal_digits | first [reflexivity | exact Hrest] ].
    reflexivity. }
  assert (Htruthy : truthy (Str (pre ++ decimal ma ++ "." ++ decimal mi ++ "." ++
                                 decimal pa ++ rest)) = true).
  { cbn [truthy]. apply negb_true_iff, String.eqb_neq. intros H.
    apply (f_equal (digit_runs_from None)) in H. rewrite Hruns in H. discriminate. }
  rewrite Htruthy. cbn [negb read_version]. unfold match_all_digits. rewrite Hruns.
  cbn [nth_error Number]. now rewrite !digits_value_decimal.
Qed.

Lemma getVersion_semver_roundtrip_witness :
  getVersion (Obj [("vue", Str "^2.6.11-beta")]) "vue"
  = Return (Some {| major := Some 2%Z; minor := Some 6%Z; patch := Some 11%Z |}).
Proof.
  apply (getVersion_semver_roundtrip "vue" "^" "-beta" 2 6 11); reflexivity.
Defined.

Lemma digit_runs_some (run s : string) : digit_runs_from (Some run) s <> [].
Proof.
  revert run; induction s as [|c s IH]; intros run; simpl; [discriminate|].
  destruct (is_digit c); [apply IH | discriminate].
Qed.

Lemma digit_runs_has_digit (s : string) :
  all_chars (fun c => negb (is_digit c)) s = false -> digit_runs_from None s <> [].
Proof.
  induction s as [|c s IH]; simpl; [discriminate|].
  destruct (is_digit c); simpl; [intros _; apply digit_runs_some | exact IH].
Qed.

(** X10.  On a version string holding at least one digit [getVersion] does not
    throw, and the major number it returns is a number. *)
Theorem getVersion_with_digit (dependencies : value) (name v : string) :
  truthy dependencies = true -> get dependencies name = Str v ->
  all_chars (fun c => negb (is_digit c)) v = false ->
  exists ver n, getVersion dependencies name = Return (Some ver) /\ major ver = Some n.
Proof.
  intros Hd Hv Hdig. unfold getVersion. rewrite Hd, (lookup_own_string _ _ _ Hv).
  cbn [negb truthy].
  destruct (String.eqb_spec v "") as [-> | Hne]; [discriminate|]. cbn [negb read_version].
  unfold match_all_digits.
  destruct (digit_runs_from None v) as [|r runs] eqn:Hr;
    [now apply digit_runs_has_digit in Hdig|].
  eexists _, _. split; reflexivity.
Qed.

Lemma getVersion_with_digit_witness :
  exists ver n, getVersion (Obj [("vue", Str "3.x")]) "vue" = Return (Some ver) /\
                major ver = Some n.
Proof.
  apply (getVersion_with_digit (Obj [("vue", Str "3.x")]) "vue" "3.x"); reflexivity.
Defined.

End VersionFacts.

(** ** Local address and URL paths *)

Lemma first_external_some (intfs : list interface) (intf : interface) :
  first_external intfs = Some intf ->
  In intf intfs /\ family intf = "IPv4" /\ internal intf = false.
Proof.
  induction intfs as [|i intfs IH]; simpl; [discriminate|].
  destruct (String.eqb (family i) "IPv4" && negb (internal i)) eqn:E.
  - intros H. injection H as <-. apply andb_true_iff in E as [Hf Hi].
    apply String.eqb_eq in Hf. apply negb_true_iff in Hi. auto.
  - intros H. destruct (IH H) as (Hin & Hf & Hi). auto.
Qed.

Lemma first_external_none (intfs : list interface) :
  first_external intfs = None <->
  forall intf, In intf intfs -> family intf <> "IPv4" \/ internal intf = true.
Proof.
  induction intfs as [|i intfs IH]; simpl.
  - split; [intros _ intf [] | reflexivity].
  - destruct (String.eqb_spec (family i) "IPv4") as [Hf | Hf]; simpl.
    + destruct (internal i) eqn:Hi; simpl.
      * rewrite IH. split.
        -- intros H intf [<- | Hin]; auto.
        -- intros H intf Hin. apply H. now right.
      * split; [discriminate|]. intros H.
        destruct (H i (or_introl eq_refl)) as [H' | H']; [contradiction | congruence].
    + rewrite IH. split.
      * intros H intf [<- | Hin]; auto.
      * intros H intf Hin. apply H. now right.
Qed.

(** X11.  The interface [getLocalIP] returns is an IPv4 interface that is not
    internal; it returns [null], and loading the module throws on the
    destructuring of [LOCAL_IP], exactly when the machine has no such
    interface. *)
Theorem getLocalIP_external (interfaces : list (list interface)) :
  (forall intf, getLocalIP interfaces = Some intf ->
                (exists intfs, In intfs interfaces /\ In intf intfs) /\
                family intf = "IPv4" /\ internal intf = false /\
                LOCAL_IP interfaces = Return (address intf)) /\
  ((exists e, LOCAL_IP interfaces = Throw e) <->
   forall intfs intf, In intfs interfaces -> In intf intfs ->
                      family intf <> "IPv4" \/ internal intf = true).
Proof.
  split.
  - intros intf H. unfold LOCAL_IP. rewrite H.
    induction interfaces as [|intfs rest IH]; simpl in H; [discriminate|].
    destruct (first_external intfs) as [found|] eqn:E.
    + injection H as <-. destruct (first_external_some _ _ E) as (Hin & Hf & Hi).
      repeat split; auto. exists intfs. simpl. auto.
    + destruct (IH H) as ((l & Hl & Hin) & Hrest). split; [|exact Hrest].
      exists l. simpl. auto.
  - unfold LOCAL_IP.
    assert (Hnone : getLocalIP interfaces = None <->
                    forall intfs intf, In intfs interfaces -> In intf intfs ->
                                       family intf <> "IPv4" \/ internal intf = true).
    { induction interfaces as [|intfs rest IH]; simpl.
      - split; [intros _ ? ? [] | reflexivity].
      - destruct (first_external intfs) as [found|] eqn:E.
        + split; [discriminate|]. intros H. exfalso.
          destruct (first_external_some _ _ E) as (Hin & Hf & Hi).
          destruct (H intfs found (or_introl eq_refl) Hin); congruence.
        + rewrite IH. pose proof (proj1 (first_external_none intfs) E) as Hhere. split.
          * intros H l intf [<- | Hl] Hin; eauto.
          * intros H l intf Hl Hin. apply (H l intf); auto. }
    destruct (getLocalIP interfaces) as [intf|]; split.
    + intros [e H]. discriminate.
    + intros H. apply Hnone in H. discriminate.
    + intros _. now apply Hnone.
    + intros _. eauto.
Qed.

Lemma backslashes_length (s : string) : String.length (backslashes s) = String.length s.
Proof. induction s as [|c s IH]; simpl; [reflexivity | now rewrite IH]. Qed.

Lemma backslashes_no_slash (s : string) : contains (backslashes s) "/" = false.
Proof.
  induction s as [|c s IH]; [reflexivity|].
  cbn [backslashes contains]. rewrite IH, orb_false_r.
  destruct (Ascii.eqb_spec c "/") as [-> | Hc]; [reflexivity|].
  cbn [String.prefix]. destruct (ascii_dec "/" c) as [E | E]; [congruence | reflexivity].
Qed.

(** X12.  Where the path separator is a backslash, [urlToPath] leaves no slash in
    the path and keeps its length; elsewhere it returns the path as it
    is. *)
Theorem urlToPath_separators (sep urlPath : string) :
  (sep = String "\" "" ->
   contains (urlToPath sep urlPath) "/" = false /\
   String.length (urlToPath sep urlPath) = String.length urlPath) /\
  (sep <> String "\" "" -> urlToPath sep urlPath = urlPath).
Proof.
  unfold urlToPath. split.
  - intros ->. rewrite String.eqb_refl.
    split; [apply backslashes_no_slash | apply backslashes_length].
  - intros H. apply String.eqb_neq in H. now rewrite H.
Qed.

Lemma urlToPath_separators_witness :
  urlToPath (String "\" "") "/src/app.js" = String "\" "src" ++ String "\" "app.js" /\
  urlToPath "/" "/src/app.js" = "/src/app.js".
Proof.
  split; [reflexivity|].
  apply (proj2 (urlToPath_separators "/" "/src/app.js")). discriminate.
Defined.

Lemma getLocalIP_external_witness :
  let lo := {| family := "IPv4"; internal := true; address := "127.0.0.1" |} in
  let eth6 := {| family := "IPv6"; internal := false; address := "fe80::1" |} in
  let eth4 := {| family := "IPv4"; internal := false; address := "192.168.1.5" |} in
  getLocalIP [[lo]; [eth6; eth4]] = Some eth4 /\
  LOCAL_IP [[lo]; [eth6; eth4]] = Return "192.168.1.5" /\
  LOCAL_IP [[lo]; [eth6]] = Throw "TypeError: Cannot destructure property 'address' of null".
Proof.
  intros lo eth6 eth4. split; [reflexivity|]. split.
  - apply (proj1 (getLocalIP_external [[lo]; [eth6; eth4]]) eth4 eq_refl).
  - reflexivity.
Defined.

(** ** Package descriptor cache *)

Section DescriptorFacts.

Variable path_join : string -> string -> string.
Variable disk : Disk.

(** The parent directory as the walk computes it, and whether a directory
    holds a descriptor. *)
Let parent (d : string) : string := path_join d "..".
Let has_descriptor (d : string) : bool := exists_on disk (path_join d "package.json").

Lemma walk_up_result fuel dir prev d :
  walk_up path_join disk fuel dir prev = Some d ->
  exists i, d = Nat.iter i parent dir /\
            forall j, j < i -> has_descriptor (Nat.iter j parent dir) = false.
Proof.
  revert dir prev; induction fuel as [|fuel IH]; intros dir prev; simpl; [discriminate|].
  destruct (negb (String.eqb dir prev) &&
            negb (exists_on disk (path_join dir "package.json"))) eqn:E.
  - intros H. destruct (IH _ _ H) as (i & Hd & Hbelow). exists (S i). split.
    + now rewrite Nat.iter_succ_r.
    + intros [|j] Hj.
      * apply andb_true_iff in E as [_ E]. now apply negb_true_iff in E.
      * rewrite Nat.iter_succ_r. apply Hbelow. lia.
  - intros H. injection H as <-. exists 0. split; [reflexivity|]. intros j Hj. lia.
Qed.

(** X13.  Whatever directory [getPackageJSONDir] returns holds a descriptor and
    is the nearest such directory on the walk from [dir] upwards. *)
Theorem getPackageJSONDir_nearest fuel dir d :
  getPackageJSONDir path_join disk fuel dir = Some (Some d) ->
  exists i, d = Nat.iter i (fun x => path_join x "..") dir /\
            exists_on disk (path_join d "package.json") = true /\
            forall j, j < i ->
              exists_on disk
                (path_join (Nat.iter j (fun x => path_join x "..") dir) "package.json")
              = false.
Proof.
  unfold getPackageJSONDir.
  destruct (walk_up path_join disk fuel dir "") as [found|] eqn:E; [|discriminate].
  destruct (exists_on disk (path_join found "package.json")) eqn:Hex; [|discriminate].
  intros H. injection H as <-.
  destruct (walk_up_result _ _ _ _ E) as (i & Hd & Hbelow). exists i. auto.
Qed.

Lemma walk_up_found n : forall fuel dir prev,
  n < fuel -> (0 < n -> dir <> prev) ->
  (forall i, i < n -> has_descriptor (Nat.iter i parent dir) = false /\
                      Nat.iter (S i) parent dir <> Nat.iter i parent dir) ->
  has_descriptor (Nat.iter n parent dir) = true ->
  walk_up path_join disk fuel dir prev = Some (Nat.iter n parent dir).
Proof.
  induction n as [|n IH]; intros fuel dir prev Hfuel Hprev Hbelow Hat;
    (destruct fuel as [|fuel]; [lia|]); cbn [walk_up].
  - change (exists_on disk (path_join dir "package.json")) with (has_descriptor dir).
    change (Nat.iter 0 parent dir) with dir in *.
    rewrite Hat, andb_false_r. reflexivity.
  - destruct (Hbelow 0 ltac:(lia)) as [H0 Hmove].
    change (Nat.iter 0 parent dir) with dir in *.
    change (Nat.iter 1 parent dir) with (parent dir) in Hmove.
    change (exists_on disk (path_join dir "package.json")) with (has_descriptor dir).
    rewrite H0.
    destruct (String.eqb_spec dir prev) as [Heq | _]; [exfalso; apply Hprev; [lia | exact Heq]|].
    cbn [negb andb]. change (path_join dir "..") with (parent dir).
    rewrite Nat.iter_succ_r. apply IH; [lia | intros _; exact Hmove | | ].
    + intros i Hi. rewrite <- !Nat.iter_succ_r. apply Hbelow. lia.
    + now rewrite <- Nat.iter_succ_r.
Qed.

(** X14.  When the [n]-th ancestor of a non-empty [dir] holds a descriptor, no
    nearer one does, and each step up to it changes the path, the walk
    returns that ancestor as soon as it is given more than [n]
    iterations. *)
Theorem getPackageJSONDir_finds (n fuel : nat) (dir : string) :
  n < fuel -> dir <> "" ->
  (forall i, i < n ->
     exists_on disk (path_join (Nat.iter i (fun x => path_join x "..") dir) "package.json")
     = false /\
     Nat.iter (S i) (fun x => path_join x "..") dir
     <> Nat.iter i (fun x => path_join x "..") dir) ->
  exists_on disk (path_join (Nat.iter n (fun x => path_join x "..") dir) "package.json")
  = true ->
  getPackageJSONDir path_join disk fuel dir
  = Some (Some (Nat.iter n (fun x => path_join x "..") dir)).
Proof.
  intros Hfuel Hne Hbelow Hat. unfold getPackageJSONDir.
  rewrite (walk_up_found n fuel dir "" Hfuel (fun _ => Hne) Hbelow Hat).
  unfold parent. now rewrite Hat.
Qed.

Lemma walk_up_root n : forall fuel dir prev,
  n + 2 <= fuel ->
  (forall i, i <= n -> has_descriptor (Nat.iter i parent dir) = false) ->
  Nat.iter (S n) parent dir = Nat.iter n parent dir ->
  exists i, i <= n /\ walk_up path_join disk fuel dir prev = Some (Nat.iter i parent dir).
Proof.
  induction n as [|n IH]; intros fuel dir prev Hfuel Hnone Hfix;
    (destruct fuel as [|fuel]; [lia|]); cbn [walk_up];
    pose proof (Hnone 0 ltac:(lia)) as H0;
    change (Nat.iter 0 parent dir) with dir in H0;
    change (exists_on disk (path_join dir "package.json")) with (has_descriptor dir);
    rewrite H0; change (path_join dir "..") with (parent dir).
  - exists 0. split; [lia|]. change (Nat.iter 0 parent dir) with dir in *.
    change (Nat.iter 1 parent dir) with (parent dir) in Hfix.
    destruct (String.eqb dir prev); cbn [negb andb]; [reflexivity|].
    destruct fuel as [|fuel]; [lia|]. cbn [walk_up].
    rewrite Hfix, String.eqb_refl. reflexivity.
  - destruct (String.eqb dir prev); cbn [negb andb].
    + exists 0. split; [lia | reflexivity].
    + destruct (IH fuel (parent dir) dir ltac:(lia)) as (i & Hi & Hw).
      * intros i Hi. rewrite <- Nat.iter_succ_r. apply Hnone. lia.
      * now rewrite <- !Nat.iter_succ_r.
      * exists (S i). split; [lia|]. rewrite Nat.iter_succ_r. exact Hw.
Qed.

(** X15.  When no directory from [dir] up to one that is its own parent holds a
    descriptor, the walk ends there and [getPackageJSONDir] returns
    [null]. *)
Theorem getPackageJSONDir_null (n fuel : nat) (dir : string) :
  n + 2 <= fuel ->
  (forall i, i <= n ->
     exists_on disk (path_join (Nat.iter i (fun x => path_join x "..") dir) "package.json")
     = false) ->
  Nat.iter (S n) (fun x => path_join x "..") dir = Nat.iter n (fun x => path_join x "..") dir ->
  getPackageJSONDir path_join disk fuel dir = Some None.
Proof.
  intros Hfuel Hnone Hfix. unfold getPackageJSONDir.
  destruct (walk_up_root n fuel dir "" Hfuel Hnone Hfix) as (i & Hi & ->).
  pose proof (Hnone i Hi) as H. unfold parent. now rewrite H.
Qed.

(** A read never changes an entry the cache already holds. *)
Lemma readPackageJSON_at_keeps (other : Disk) m dirPath d pj :
  cache_get m d = Some pj ->
  cache_get (snd (readPackageJSON_at path_join other m dirPath)) d = Some pj.
Proof.
  intros H. unfold readPackageJSON_at. destruct dirPath as [d'|]; [|exact H].
  destruct (cache_get m d') eqn:Hd'; [exact H|].
  destruct (read_json other (path_join d' "package.json")) as [[| |b|z|str|props]|];
    try exact H; simpl;
    (destruct (String.eqb_spec d d') as [-> | _]; [congruence | exact H]).
Qed.

Lemma after_reads_keeps reads : forall m d pj,
  cache_get m d = Some pj -> cache_get (after_reads path_join m reads) d = Some pj.
Proof.
  induction reads as [|[other dirPath] reads IH]; intros m d pj H; simpl; [exact H|].
  apply IH. now apply readPackageJSON_at_keeps.
Qed.

(** X16.  Once the descriptor of a directory has been read and parsed, every
    later read of that directory returns the same descriptor and leaves the
    cache as it is, whatever was read in between and whatever the disk
    holds by then. *)
Theorem readPackageJSON_at_stable (m : cache) (d : string) (parsed : value)
        (reads : list (Disk * option string)) (later : Disk) :
  cache_get m d = None ->
  read_json disk (path_join d "package.json") = Some parsed -> parsed <> Null ->
  let first := readPackageJSON_at path_join disk m (Some d) in
  let m' := after_reads path_join (snd first) reads in
  fst first = {| browser := get parsed "browser"; main := get parsed "main";
                 module := get parsed "module"; version := get parsed "version" |} /\
  readPackageJSON_at path_join later m' (Some d) = (fst first, m').
Proof.
  intros Hmiss Hread Hnull first m'.
  assert (Hfirst : first = ({| browser := get parsed "browser"; main := get parsed "main";
                               module := get parsed "module";
                               version := get parsed "version" |},
                            (d, {| browser := get parsed "browser"; main := get parsed "main";
                                   module := get parsed "module";
                                   version := get parsed "version" |}) :: m)).
  { unfold first, readPackageJSON_at. rewrite Hmiss, Hread.
    destruct parsed; try reflexivity. contradiction. }
  split; [now rewrite Hfirst|].
  assert (Hhit : cache_get m' d = Some (fst first)).
  { unfold m'. apply after_reads_keeps. rewrite Hfirst. simpl.
    now rewrite String.eqb_refl. }
  unfold readPackageJSON_at. now rewrite Hhit.
Qed.

(** X17.  An unreadable or malformed descriptor yields the empty descriptor and
    is not cached, so that a later read sees the file as it then is. *)
Theorem readPackageJSON_at_retry (m : cache) (d : string) (parsed : value) (later : Disk) :
  cache_get m d = None ->
  read_json disk (path_join d "package.json") = None ->
  read_json later (path_join d "package.json") = Some parsed ->
  let first := readPackageJSON_at path_join disk m (Some d) in
  first = (empty_descriptor, m) /\
  fst (readPackageJSON_at path_join later (snd first) (Some d))
  = {| browser := get parsed "browser"; main := get parsed "main";
       module := get parsed "module"; version := get parsed "version" |}.
Proof.
  intros Hmiss Hfail Hread first.
  assert (Hfirst : first = (empty_descriptor, m)).
  { unfold first, readPackageJSON_at. now rewrite Hmiss, Hfail. }
  split; [exact Hfirst|]. rewrite Hfirst. simpl snd.
  unfold readPackageJSON_at. rewrite Hmiss, Hread.
  destruct parsed; reflexivity.
Qed.

Lemma resolvePackageMain_at_truthy (m : cache) (dirPath : option string)
        (v : member) (m' : cache) :
  resolvePackageMain_at path_join disk m dirPath = (Return v, m') -> member_truthy v = true.
Proof.
  unfold resolvePackageMain_at.
  destruct (readPackageJSON_at path_join disk m dirPath) as [pj m1].
  destruct (member_truthy (declared_entry pj)) eqn:E.
  - intros H. injection H as <- _. exact E.
  - destruct (findExistingExtension (exists_on disk) (dir_string dirPath ++ "/index"))
      as [ext|e]; intros H; try discriminate.
    injection H as <- _. reflexivity.
Qed.

(** X18.  The entry [resolvePackageMain] returns is never a falsy value: it is a
    declared entry that is set, or [index] with the extension found. *)
Theorem resolvePackageMain_truthy (fuel : nat) (m : cache) (dir : string) (search : bool)
        (v : member) (m' : cache) :
  resolvePackageMain path_join disk fuel m dir search = Some (Return v, m') ->
  member_truthy v = true.
Proof.
  unfold resolvePackageMain. destruct search.
  - destruct (getPackageJSONDir path_join disk fuel dir) as [dirPath|]; [|discriminate].
    intros H. injection H as H. exact (resolvePackageMain_at_truthy _ _ _ _ H).
  - intros H. injection H as H. exact (resolvePackageMain_at_truthy _ _ _ _ H).
Qed.

End DescriptorFacts.

(** ** Splitting requests *)

Section SplitFacts.

Variable sep : string.
Hypothesis sep_nonempty : sep <> "".

Lemma split_from_nonempty skip cur s : split_from sep skip cur s <> [].
Proof.
  revert skip cur; induction s as [|c s IH]; intros skip cur; cbn [split_from];
    [discriminate|].
  destruct skip; [|apply IH]. destruct (String.prefix sep (String c s)); [discriminate | apply IH].
Qed.

Lemma split_from_skip a : forall cur s,
  split_from sep (String.length a) cur (a ++ s) = split_from sep 0 cur s.
Proof. induction a as [|c a IH]; intros cur s; [reflexivity | apply IH]. Qed.

Lemma sep_head : exists c sep', sep = String c sep'.
Proof. destruct sep; [contradiction | eauto]. Qed.

(** A separator at the head ends the piece being collected. *)
Lemma split_from_sep cur s :
  split_from sep 0 cur (sep ++ s) = cur :: split_from sep 0 EmptyString s.
Proof.
  destruct sep_head as (c & sep' & E).
  assert (Hs : sep ++ s = String c (sep' ++ s)) by (rewrite E; reflexivity).
  rewrite Hs. cbn [split_from]. rewrite <- Hs, prefix_app.
  replace (String.length sep - 1) with (String.length sep') by (rewrite E; simpl; lia).
  f_equal. apply split_from_skip.
Qed.

(** Characters at which no separator begins are added to the piece. *)
Lemma split_from_piece a : forall cur s,
  (forall i, i < String.length a -> String.prefix sep (drop i (a ++ s)) = false) ->
  split_from sep 0 cur (a ++ s) = split_from sep 0 (cur ++ a) s.
Proof.
  induction a as [|c a IH]; intros cur s H.
  - now rewrite append_empty_r.
  - change (String c a ++ s) with (String c (a ++ s)). cbn [split_from].
    pose proof (H 0 ltac:(simpl; lia)) as H0. cbn [drop] in H0.
    change (String c a ++ s) with (String c (a ++ s)) in H0. rewrite H0.
    rewrite IH.
    + f_equal. rewrite append_assoc. reflexivity.
    + intros i Hi. apply (H (S i)). simpl. lia.
Qed.

Lemma split_no_occurrence cur s :
  no_occurrence sep s -> split_from sep 0 cur s = [cur ++ s].
Proof.
  intros H. rewrite <- (append_empty_r s) at 1.
  rewrite split_from_piece; [reflexivity|].
  intros i _. rewrite append_empty_r. apply H.
Qed.

Lemma drop_empty i : drop i "" = "".
Proof. now destruct i. Qed.

Lemma prefix_sep_empty : String.prefix sep "" = false.
Proof. destruct sep; [contradiction | reflexivity]. Qed.

(** The last piece of a split holds no separator. *)
Lemma split_from_last s : forall skip cur,
  (forall i, i < String.length cur ->
             String.prefix sep (drop i (cur ++ drop skip s)) = false) ->
  no_occurrence sep (last (split_from sep skip cur s) "").
Proof.
  induction s as [|c s IH]; intros skip cur H.
  - cbn [split_from last]. intros i.
    destruct (Nat.lt_ge_cases i (String.length cur)) as [Hi | Hi].
    + specialize (H i Hi). now rewrite drop_empty, append_empty_r in H.
    + replace (drop i cur) with "".
      * apply prefix_sep_empty.
      * clear -Hi. revert i Hi. induction cur as [|x cur IHc]; intros i Hi;
          [now rewrite drop_empty|].
        destruct i; [simpl in Hi; lia|]. simpl. apply IHc. simpl in Hi. lia.
  - cbn [split_from]. destruct skip as [|k].
    + destruct (String.prefix sep (String c s)) eqn:E.
      * assert (Hlast : forall l, l <> [] -> last (cur :: l) "" = last l "").
        { intros [|x l] Hl; [contradiction | reflexivity]. }
        rewrite Hlast by apply split_from_nonempty.
        apply IH. intros i Hi. simpl in Hi. lia.
      * apply IH. intros i Hi. cbn [drop]. rewrite append_assoc.
        change (String c "" ++ s) with (String c s).
        rewrite length_append in Hi. simpl in Hi.
        destruct (Nat.eq_dec i (String.length cur)) as [-> | Hne].
        -- now rewrite drop_app_length.
        -- apply (H i). lia.
    + apply IH. intros i Hi. apply (H i Hi).
Qed.

(** Joining the pieces with the separator gives the string back. *)
Lemma join_split_from s : forall skip cur,
  join (split_from sep skip cur s) sep = cur ++ drop skip s.
Proof.
  unfold join. induction s as [|c s IH]; intros skip cur.
  - cbn [split_from String.concat]. now rewrite drop_empty, append_empty_r.
  - cbn [split_from]. destruct skip as [|k]; [|apply IH].
    destruct (String.prefix sep (String c s)) eqn:E.
    + assert (Hcons : forall l, l <> [] ->
                String.concat sep (cur :: l) = cur ++ sep ++ String.concat sep l).
      { intros [|x l] Hl; [contradiction | reflexivity]. }
      rewrite Hcons by apply split_from_nonempty. rewrite IH. cbn [append drop].
      f_equal. rewrite (prefix_split _ _ E) at 1. f_equal.
      destruct sep_head as (x & sep' & Hsep).
      replace (String.length sep) with (S (String.length sep')) by (now rewrite Hsep).
      cbn [drop]. now rewrite Nat.sub_succ, Nat.sub_0_r.
    + rewrite IH. cbn [drop]. now rewrite append_assoc.
Qed.

End SplitFacts.

Lemma no_slash_prefix (a s : string) (i : nat) :
  Regex.all_chars (fun c => negb (Ascii.eqb c "/")) a = true ->
  i < String.length a -> String.prefix "/" (drop i (a ++ s)) = false.
Proof.
  revert i; induction a as [|c a IH]; intros i Ha Hi; [simpl in Hi; lia|].
  simpl in Ha. apply andb_true_iff in Ha as [Hc Ha].
  destruct i as [|i].
  - cbn [drop append String.prefix]. apply negb_true_iff, Ascii.eqb_neq in Hc.
    destruct (ascii_dec "/" c); [congruence | reflexivity].
  - cbn [drop append]. apply IH; [exact Ha | simpl in Hi; lia].
Qed.

(** X19.  For a request [/node_modules/<name>/<sub>] that holds no further
    vendor root, [name] being free of slashes, the module name is
    [<name>/<sub>] and the sub-path looked up in a [browser] mapping is
    [sub]: the text after the first slash, also when [name] is the scope of
    a scoped package. *)
Theorem modPath_of_request (name sub : string) :
  Regex.all_chars (fun c => negb (Ascii.eqb c "/")) name = true ->
  no_occurrence "/node_modules/" (name ++ "/" ++ sub) ->
  modName_of ("/node_modules/" ++ name ++ "/" ++ sub) = name ++ "/" ++ sub /\
  modPath_of ("/node_modules/" ++ name ++ "/" ++ sub) = sub.
Proof.
  intros Hname Hnone.
  assert (Hmod : modName_of ("/node_modules/" ++ name ++ "/" ++ sub) = name ++ "/" ++ sub).
  { unfold modName_of, split.
    rewrite (split_from_sep "/node_modules/" ltac:(discriminate) "" (name ++ "/" ++ sub)).
    now rewrite (split_no_occurrence "/node_modules/" "" _ Hnone). }
  split; [exact Hmod|]. unfold modPath_of. rewrite Hmod. unfold split.
  rewrite (split_from_piece "/" name "" ("/" ++ sub))
    by (intros i Hi; now apply no_slash_prefix).
  rewrite (split_from_sep "/" ltac:(discriminate) ("" ++ name) sub). cbn [tl].
  now rewrite (join_split_from "/" ltac:(discriminate) sub 0 "").
Qed.

Lemma modPath_of_request_witness :
  modName_of "/node_modules/@babel/runtime" = "@babel/runtime" /\
  modPath_of "/node_modules/@babel/runtime" = "runtime".
Proof.
  apply (modPath_of_request "@babel" "runtime"); [reflexivity|].
  intros i. do 14 (destruct i as [|i]; [reflexivity|]). now destruct i.
Defined.

(** X20.  The path [getModulePath] builds lies under the vendor root and, taken
    as a request, designates the module name found in the URL form of the
    file. *)
Theorem getModulePath_vendor (pathToURL : string -> string) (filepath : string) :
  isVendor (getModulePath pathToURL filepath) = true /\
  modName_of (getModulePath pathToURL filepath) = modName_of (pathToURL filepath).
Proof.
  unfold getModulePath. split; [apply prefix_app|].
  unfold modName_of at 1. unfold split at 1.
  rewrite (split_from_sep "/node_modules/" ltac:(discriminate)).
  rewrite split_no_occurrence; [reflexivity|].
  apply (split_from_last "/node_modules/" ltac:(discriminate)).
  intros i Hi. simpl in Hi. lia.
Qed.

(** ** Witnesses for the descriptor walk and cache *)

Lemma getPackageJSONDir_finds_witness :
  getPackageJSONDir normal_join (sample_disk Null) 5 "/app/node_modules/pkg/lib/util"
  = Some (Some "/app/node_modules/pkg").
Proof.
  apply (getPackageJSONDir_finds normal_join (sample_disk Null) 2 5
           "/app/node_modules/pkg/lib/util").
  - lia.
  - discriminate.
  - intros [|[|i]] Hi; [split; [reflexivity | discriminate].. | lia].
  - reflexivity.
Defined.

Lemma getPackageJSONDir_nearest_witness :
  exists i, "/app/node_modules/pkg"
            = Nat.iter i (fun x => normal_join x "..") "/app/node_modules/pkg/lib/util" /\
            exists_on (sample_disk Null) (normal_join "/app/node_modules/pkg" "package.json")
            = true /\
            forall j, j < i ->
              exists_on (sample_disk Null)
                (normal_join (Nat.iter j (fun x => normal_join x "..")
                                "/app/node_modules/pkg/lib/util") "package.json")
              = false.
Proof.
  apply (getPackageJSONDir_nearest normal_join (sample_disk Null) 5
           "/app/node_modules/pkg/lib/util" "/app/node_modules/pkg").
  reflexivity.
Defined.

Lemma getPackageJSONDir_null_witness :
  getPackageJSONDir normal_join empty_disk 4 "/srv/site" = Some None.
Proof.
  apply (getPackageJSONDir_null normal_join empty_disk 2 4 "/srv/site").
  - lia.
  - intros i _. reflexivity.
  - reflexivity.
Defined.

Lemma readPackageJSON_at_stable_witness :
  let first := readPackageJSON_at posix_join (sample_disk (Obj [("main", Str "index.js")]))
                 [] (Some "/app/node_modules/pkg") in
  fst first = {| browser := Undefined; main := Str "index.js"; module := Undefined;
                 version := Undefined |} /\
  readPackageJSON_at posix_join empty_disk
    (after_reads posix_join (snd first) [(empty_disk, Some "/app")])
    (Some "/app/node_modules/pkg")
  = (fst first, after_reads posix_join (snd first) [(empty_disk, Some "/app")]).
Proof.
  apply (readPackageJSON_at_stable posix_join (sample_disk (Obj [("main", Str "index.js")]))
           [] "/app/node_modules/pkg" (Obj [("main", Str "index.js")])
           [(empty_disk, Some "/app")] empty_disk);
    [reflexivity | reflexivity | discriminate].
Defined.

Lemma readPackageJSON_at_retry_witness :
  let first := readPackageJSON_at posix_join empty_disk [] (Some "/app/node_modules/pkg") in
  first = (empty_descriptor, []) /\
  fst (readPackageJSON_at posix_join (sample_disk (Obj [("main", Str "index.js")]))
         (snd first) (Some "/app/node_modules/pkg"))
  = {| browser := Undefined; main := Str "index.js"; module := Undefined;
       version := Undefined |}.
Proof.
  apply (readPackageJSON_at_retry posix_join empty_disk [] "/app/node_modules/pkg"
           (Obj [("main", Str "index.js")]) (sample_disk (Obj [("main", Str "index.js")])));
    reflexivity.
Defined.

Lemma resolvePackageMain_truthy_witness :
  option_map fst
    (resolvePackageMain normal_join (sample_disk (Obj [("version", Str "1.0.0")]))
       5 [] "/app/node_modules/pkg/lib" true)
  = Some (Return (Data (Str "index.js"))) /\
  member_truthy (Data (Str "index.js")) = true.
Proof.
  split; [reflexivity|].
  apply (resolvePackageMain_truthy normal_join (sample_disk (Obj [("version", Str "1.0.0")]))
           5 [] "/app/node_modules/pkg/lib" true (Data (Str "index.js"))
           [("/app/node_modules/pkg",
             {| browser := Undefined; main := Undefined; module := Undefined;
                version := Str "1.0.0" |})]).
  reflexivity.
Defined.

(** ** Resolver: what the hooks leave to the library *)

Section HookFacts.

Variable extname : string -> string.

Lemma packageFilter_plain modPath emptyPath pkg st :
  is_mapping (browser pkg) = false ->
  packageFilter extname modPath emptyPath pkg st = Return (normalise_main pkg, st).
Proof.
  intros H. unfold packageFilter, normalise_main.
  assert (Hb : browser (if truthy (module pkg) then set_main pkg (module pkg) else pkg)
               = browser pkg) by now destruct (truthy (module pkg)).
  rewrite Hb. destruct (is_string (browser pkg)); [reflexivity|].
  unfold is_mapping in H. now rewrite H.
Qed.

Lemma drive_plain modPath emptyPath r : forall st,
  plain r -> modified st = false -> resolved st = false -> outcome st = Pending ->
  drive extname modPath emptyPath r st = Finished (verdict normalise_main r).
Proof.
  induction r as [pkg k IH | pkg full rel k IH | err p]; intros st Hplain Hm Hr Ho;
    inversion Hplain; subst; simpl.
  - rewrite packageFilter_plain by assumption. now apply IH.
  - unfold pathFilter. rewrite Hm. now apply IH.
  - unfold callback. rewrite Hr, Ho. now destruct err.
Qed.

(** With a requested sub-path every run of the library ends in the final
    callback. *)
Lemma reaches_callback modPath emptyPath r : forall st,
  modPath <> "" ->
  exists err p st', reaches extname modPath emptyPath r st (CallBack err p) st'.
Proof.
  induction r as [pkg k IH | pkg full rel k IH | err p]; intros st Hne.
  - destruct (packageFilter_subpath extname modPath emptyPath pkg st Hne)
      as (pkg' & st1 & Hf & _).
    destruct (IH pkg' st1 Hne) as (err & p & st' & Hreach).
    exists err, p, st'. eapply reaches_package; eauto.
  - destruct (IH (pathFilter st pkg full rel) st Hne) as (err & p & st' & Hreach).
    exists err, p, st'. now apply reaches_path.
  - exists err, p, st. apply reaches_here.
Qed.

End HookFacts.

(** X21.  When no descriptor the library filters has a [browser] mapping, the
    hooks do not interfere: [resolvePackageFrom] ends with what the library
    reports given only the normalisation of [main] and its own relative
    paths, fulfilled with its path or rejected with its error. *)
Theorem resolvePackageFrom_plain
        (extname : string -> string) (path_resolve : string -> string -> string)
        (isCore : string -> bool) (resolvePackage : string -> string -> list string -> run)
        (basedir dpath hqroot : string) :
  plain (resolvePackage (modResolve_of isCore dpath) basedir resolve_extensions) ->
  resolvePackageFrom extname path_resolve isCore resolvePackage basedir dpath hqroot =
  Finished (verdict normalise_main
              (resolvePackage (modResolve_of isCore dpath) basedir resolve_extensions)).
Proof.
  intros H. unfold resolvePackageFrom. now apply drive_plain.
Qed.

Lemma resolvePackageFrom_plain_witness :
  resolvePackageFrom posix_extname posix_resolve no_core
    (fun _ _ _ => CallPackageFilter empty_descriptor (fun _ =>
                    CallBack (Some "Cannot find module 'pkg/lib/foo.js'") Undefined))
    "/app" "/node_modules/pkg/lib/foo.js" "/hq"
  = Finished (Rejected "Cannot find module 'pkg/lib/foo.js'").
Proof.
  apply (resolvePackageFrom_plain posix_extname posix_resolve no_core
           (fun _ _ _ => CallPackageFilter empty_descriptor (fun _ =>
                           CallBack (Some "Cannot find module 'pkg/lib/foo.js'") Undefined))
           "/app" "/node_modules/pkg/lib/foo.js" "/hq").
  apply plain_package; [reflexivity|]. intros pkg'. apply plain_callback.
Defined.

(** X22.  For a request with a sub-path the call always ends in the library's
    final callback, and its outcome is one of three: the empty-module path
    when a filtered descriptor disabled the request, otherwise a rejection
    with the library's error, otherwise the path the library reports. *)
Theorem resolvePackageFrom_outcome
        (extname : string -> string) (path_resolve : string -> string -> string)
        (isCore : string -> bool) (resolvePackage : string -> string -> list string -> run)
        (basedir dpath hqroot : string) :
  modPath_of dpath <> "" ->
  exists err p st,
    reaches extname (modPath_of dpath) (emptyPath_of path_resolve hqroot)
            (resolvePackage (modResolve_of isCore dpath) basedir resolve_extensions) initial
            (CallBack err p) st /\
    resolvePackageFrom extname path_resolve isCore resolvePackage basedir dpath hqroot =
    Finished (if resolved st then Fulfilled (Str (emptyPath_of path_resolve hqroot))
              else match err with
                   | Some e => Rejected e
                   | None => Fulfilled p
                   end).
Proof.
  intros Hne.
  destruct (reaches_callback extname (modPath_of dpath) (emptyPath_of path_resolve hqroot)
              (resolvePackage (modResolve_of isCore dpath) basedir resolve_extensions)
              initial Hne) as (err & p & st & Hreach).
  exists err, p, st. split; [exact Hreach|].
  unfold resolvePackageFrom. rewrite (reaches_drive _ _ _ _ _ _ _ Hreach). simpl.
  pose proof (reaches_open_or_disabled _ _ _ _ _ _ _ Hne Hreach
                (open_or_disabled_initial _)) as [[Hr Ho] | [Hr Ho]];
    unfold callback; rewrite Hr, Ho; [now destruct err | reflexivity].
Qed.

Lemma resolvePackageFrom_outcome_witness :
  exists err p st,
    reaches posix_extname (modPath_of "/node_modules/pkg/lib/foo.js")
            (emptyPath_of posix_resolve "/hq")
            (single_package_run disabled_by_false "/app/node_modules/pkg" "lib/foo.js"
               (modResolve_of no_core "/node_modules/pkg/lib/foo.js") "/app"
               resolve_extensions)
            initial (CallBack err p) st /\
    resolvePackageFrom posix_extname posix_resolve no_core
      (single_package_run disabled_by_false "/app/node_modules/pkg" "lib/foo.js")
      "/app" "/node_modules/pkg/lib/foo.js" "/hq" =
    Finished (if resolved st then Fulfilled (Str (emptyPath_of posix_resolve "/hq"))
              else match err with
                   | Some e => Rejected e
                   | None => Fulfilled p
                   end).
Proof.
  apply (resolvePackageFrom_outcome posix_extname posix_resolve no_core
           (single_package_run disabled_by_false "/app/node_modules/pkg" "lib/foo.js")
           "/app" "/node_modules/pkg/lib/foo.js" "/hq").
  discriminate.
Defined.

(** ** Listener bootstrap: which port is bound *)

Section PortFacts.

Variable listen : Z -> option string.
Variables (certificates : list string) (root s : string).

(** What [getFreeServer] resolves with, [n] ports above the one it was
    called with. *)
Lemma getFreeServer_returns (k : nat) : forall port retry l,
  (0 <= retry <= 31)%Z -> Z.to_nat (31 - retry) <= k ->
  getFreeServer listen certificates root s port retry = Return l ->
  exists n, (0 <= n <= 31 - retry)%Z /\
            l = {| certs := map (fun crt => drop (String.length root) crt) certificates;
                   server_port := (port + n)%Z; protocol := "http" ++ s |} /\
            listen (port + n)%Z = None /\
            forall i, (0 <= i < n)%Z -> listen (port + i)%Z <> None.
Proof.
  induction k as [|k IH]; intros port retry l Hr Hk H;
    destruct (listen port) as [e|] eqn:He.
  - rewrite (getFreeServer_failed _ _ _ _ _ _ _ He) in H.
    replace (retry >? MAX_RETRY)%Z with true in H
      by (symmetry; apply Z.gtb_lt; unfold MAX_RETRY; lia).
    discriminate.
  - rewrite (getFreeServer_equation_1 _ _ _ _ port retry), He in H. simpl in H.
    injection H as <-. exists 0%Z. rewrite Z.add_0_r. repeat split; auto; lia.
  - rewrite (getFreeServer_failed _ _ _ _ _ _ _ He) in H.
    destruct (retry >? MAX_RETRY)%Z eqn:Hcmp; [discriminate|].
    rewrite Z.gtb_ltb in Hcmp. apply Z.ltb_ge in Hcmp. unfold MAX_RETRY in Hcmp.
    destruct (IH (port + 1)%Z (retry + 1)%Z l ltac:(lia) ltac:(lia) H)
      as (n & Hn & Hl & Hfree & Hbusy).
    exists (n + 1)%Z. replace (port + (n + 1))%Z with (port + 1 + n)%Z by lia.
    repeat split; auto; try lia.
    intros i Hi. destruct (Z.eq_dec i 0) as [-> | Hi0].
    + rewrite Z.add_0_r, He. discriminate.
    + replace (port + i)%Z with (port + 1 + (i - 1))%Z by lia. apply Hbusy. lia.
  - rewrite (getFreeServer_equation_1 _ _ _ _ port retry), He in H. simpl in H.
    injection H as <-. exists 0%Z. rewrite Z.add_0_r. repeat split; auto; lia.
Qed.

Lemma getFreeServer_throws (k : nat) : forall port retry e,
  (0 <= retry <= 31)%Z -> Z.to_nat (31 - retry) <= k ->
  getFreeServer listen certificates root s port retry = Throw e ->
  (forall i, (0 <= i <= 31 - retry)%Z -> listen (port + i)%Z <> None) /\
  listen (port + (31 - retry))%Z = Some e.
Proof.
  induction k as [|k IH]; intros port retry e Hr Hk H;
    destruct (listen port) as [e0|] eqn:He.
  - rewrite (getFreeServer_failed _ _ _ _ _ _ _ He) in H.
    replace (retry >? MAX_RETRY)%Z with true in H
      by (symmetry; apply Z.gtb_lt; unfold MAX_RETRY; lia).
    injection H as <-. assert (retry = 31%Z) by lia. subst retry.
    replace (port + (31 - 31))%Z with port by lia. split; [|exact He].
    intros i Hi. replace (port + i)%Z with port by lia. rewrite He. discriminate.
  - rewrite (getFreeServer_equation_1 _ _ _ _ port retry), He in H. discriminate.
  - rewrite (getFreeServer_failed _ _ _ _ _ _ _ He) in H.
    destruct (retry >? MAX_RETRY)%Z eqn:Hcmp.
    + apply Z.gtb_lt in Hcmp. unfold MAX_RETRY in Hcmp.
      injection H as <-. assert (retry = 31%Z) by lia. subst retry.
      replace (port + (31 - 31))%Z with port by lia. split; [|exact He].
      intros i Hi. replace (port + i)%Z with port by lia. rewrite He. discriminate.
    + rewrite Z.gtb_ltb in Hcmp. apply Z.ltb_ge in Hcmp. unfold MAX_RETRY in Hcmp.
      destruct (IH (port + 1)%Z (retry + 1)%Z e ltac:(lia) ltac:(lia) H)
        as (Hbusy & Hlast). split.
      * intros i Hi. destruct (Z.eq_dec i 0) as [-> | Hi0].
        -- rewrite Z.add_0_r, He. discriminate.
        -- replace (port + i)%Z with (port + 1 + (i - 1))%Z by lia. apply Hbusy. lia.
      * replace (port + (31 - retry))%Z with (port + 1 + (31 - (retry + 1)))%Z by lia.
        exact Hlast.
  - rewrite (getFreeServer_equation_1 _ _ _ _ port retry), He in H. discriminate.
Qed.

End PortFacts.

Lemma getServer_binds (listen : Z -> option string) (found : completion (list string))
      (read_all : list string -> option string) (root : string) (port : Z) (l : listener) :
  getServer listen found read_all root port = Return l ->
  exists certificates s,
    found = Return certificates /\ read_all (firstn 2 certificates) = None /\
    getFreeServer listen certificates root s port 0 = Return l /\
    s = (if match tls_material certificates with
            | (Some _, Some _) => true
            | _ => false
            end then "s" else "").
Proof.
  unfold getServer. destruct found as [certificates | err]; [|discriminate].
  destruct (read_all (firstn 2 certificates)) eqn:Hread; [discriminate|].
  intros H. exists certificates. eexists.
  split; [reflexivity|]. split; [exact Hread|]. split; [exact H | reflexivity].
Qed.

(** X23.  The server [getServer] resolves with listens on the first port from
    [port] on that could be bound, never below [port] nor above
    [port + 31]. *)
Theorem getServer_first_free (listen : Z -> option string)
        (found : completion (list string)) (read_all : list string -> option string)
        (root : string) (port : Z) (l : listener) :
  getServer listen found read_all root port = Return l ->
  (port <= server_port l <= port + 31)%Z /\
  listen (server_port l) = None /\
  forall q, (port <= q < server_port l)%Z -> listen q <> None.
Proof.
  intros H. destruct (getServer_binds _ _ _ _ _ _ H) as (certificates & s & _ & _ & Hb & _).
  destruct (getFreeServer_returns _ _ _ _ 31 port 0%Z l ltac:(lia) ltac:(simpl; lia) Hb)
    as (n & Hn & -> & Hfree & Hbusy).
  simpl. repeat split; try lia; [exact Hfree|].
  intros q Hq. replace q with (port + (q - port))%Z by lia. apply Hbusy. lia.
Qed.

Lemma getServer_first_free_witness :
  let occupied := fun q : Z => if (q <? 3002)%Z then Some "EADDRINUSE" else None in
  exists l, getServer occupied (Return []) (fun _ => None) "/app" 3000 = Return l /\
            (3000 <= server_port l <= 3000 + 31)%Z /\
            occupied (server_port l) = None /\
            forall q, (3000 <= q < server_port l)%Z -> occupied q <> None.
Proof.
  intros occupied.
  exists {| certs := []; server_port := 3002; protocol := "http" |}.
  split; [reflexivity|].
  apply (getServer_first_free occupied (Return []) (fun _ => None) "/app" 3000
           {| certs := []; server_port := 3002; protocol := "http" |}).
  reflexivity.
Defined.

(** X24.  [getServer] fails exactly when the search for certificate files
    fails, or reading one of the first two files found fails, or, both
    having succeeded, the 32 ports from [port] to [port + 31] all fail to
    bind; the error is that of the search, of the read, or of the last
    bind. *)
Theorem getServer_fails_iff (listen : Z -> option string) (found : completion (list string))
        (read_all : list string -> option string) (root : string) (port : Z) (e : string) :
  getServer listen found read_all root port = Throw e <->
  found = Throw e \/
  exists certificates,
    found = Return certificates /\
    (read_all (firstn 2 certificates) = Some e \/
     read_all (firstn 2 certificates) = None /\
     (forall i, (0 <= i <= 31)%Z -> listen (port + i)%Z <> None) /\
     listen (port + 31)%Z = Some e).
Proof.
  unfold getServer. split.
  - destruct found as [certificates | err]; [|intros [= ->]; left; reflexivity].
    intros H. right. exists certificates. split; [reflexivity|].
    destruct (read_all (firstn 2 certificates)) eqn:Hread;
      [injection H as ->; left; reflexivity|].
    right. split; [reflexivity|].
    destruct (getFreeServer_throws _ _ _ _ 31 port 0%Z e ltac:(lia) ltac:(simpl; lia) H)
      as [Hbusy Hlast].
    split; [|exact Hlast]. intros i Hi. apply Hbusy. lia.
  - intros [-> | (certificates & -> & [Hread | (Hread & Hbusy & Hlast)])];
      [reflexivity | rewrite Hread; reflexivity | rewrite Hread].
    apply getFreeServer_all_fail; [lia | | exact Hlast].
    intros i Hi. apply Hbusy. lia.
Qed.

Lemma tls_material_two (a b : string) (rest : list string) :
  tls_material (a :: b :: rest) = tls_material [a; b].
Proof. reflexivity. Qed.

(** X25.  The protocol is [https] exactly when, of the first two certificate
    files found, one is named as a key and the other is not; later files
    play no part, and with fewer than two files it is [http]. *)
Theorem getServer_protocol (listen : Z -> option string) (certificates : list string)
        (read_all : list string -> option string) (root : string) (port : Z) (l : listener) :
  getServer listen (Return certificates) read_all root port = Return l ->
  (protocol l = "https" <->
   existsb (fun crt => endsWith crt "key.pem") (firstn 2 certificates) &&
   existsb (fun crt => negb (endsWith crt "key.pem")) (firstn 2 certificates) = true) /\
  (protocol l = "https" \/ protocol l = "http") /\
  (List.length certificates < 2 -> protocol l = "http").
Proof.
  intros H. destruct (getServer_binds _ _ _ _ _ _ H) as (found & s & [= <-] & _ & Hb & ->).
  destruct (getFreeServer_returns _ _ _ _ 31 port 0%Z l ltac:(lia) ltac:(simpl; lia) Hb)
    as (n & _ & -> & _ & _).
  cbn [protocol]. clear H Hb.
  destruct certificates as [|a [|b rest]]; unfold tls_material; cbn [firstn fold_left existsb];
    repeat match goal with
           | |- context [endsWith ?x "key.pem"] => destruct (endsWith x "key.pem")
           end;
    cbn; repeat split; auto; try discriminate; try (intros; lia);
    intros Hlen; simpl in Hlen; lia.
Qed.

Lemma getServer_protocol_witness :
  exists l, getServer (fun _ => None)
              (Return ["/app/cert.pem"; "/app/key.pem"; "/app/ca.pem"]) (fun _ => None)
              "/app" 8080 = Return l /\ protocol l = "https".
Proof.
  exists {| certs := ["/cert.pem"; "/key.pem"; "/ca.pem"]; server_port := 8080;
            protocol := "https" |}.
  split; [reflexivity|].
  apply (proj1 (getServer_protocol (fun _ => None)
                  ["/app/cert.pem"; "/app/key.pem"; "/app/ca.pem"] (fun _ => None)
                  "/app" 8080
                  {| certs := ["/cert.pem"; "/key.pem"; "/ca.pem"]; server_port := 8080;
                     protocol := "https" |} eq_refl)).
  reflexivity.
Defined.

(** X26.  Every certificate file found under the root is reported by its path
    relative to the root, which [isCertificate] then recognises. *)
Theorem getServer_relative_certs (listen : Z -> option string) (certificates : list string)
        (read_all : list string -> option string) (root rel : string) (port : Z)
        (l : listener) :
  getServer listen (Return certificates) read_all root port = Return l ->
  In (root ++ rel) certificates ->
  In rel (certs l) /\ isCertificate rel (certs l) = true.
Proof.
  intros H Hin.
  destruct (getServer_binds _ _ _ _ _ _ H) as (found & s & [= <-] & _ & Hb & _).
  destruct (getFreeServer_returns _ _ _ _ 31 port 0%Z l ltac:(lia) ltac:(simpl; lia) Hb)
    as (n & _ & -> & _ & _).
  cbn [certs].
  assert (Hrel : In rel (map (fun crt => drop (String.length root) crt) certificates)).
  { apply in_map_iff. exists (root ++ rel). split; [apply drop_app_length | exact Hin]. }
  split; [exact Hrel|].
  unfold isCertificate, includes. apply existsb_exists. exists rel.
  split; [exact Hrel | apply String.eqb_refl].
Qed.

Lemma getServer_relative_certs_witness :
  isCertificate "/certs/key.pem" ["/certs/cert.pem"; "/certs/key.pem"] = true.
Proof.
  apply (getServer_relative_certs (fun _ => None)
           ["/app/certs/cert.pem"; "/app/certs/key.pem"] (fun _ => None)
           "/app" "/certs/key.pem" 8080
           {| certs := ["/certs/cert.pem"; "/certs/key.pem"]; server_port := 8080;
              protocol := "https" |} eq_refl).
  right. left. reflexivity.
Defined.
